(** * CxKitty web worker manager: output capture, prompt bridge, registry, reaper

    A shallow embedding of [web/utils.py], of the console, process, registry
    and collector of [web/chaoxingWorker.py], and of the route handlers and
    the update stream of [app.py], with the properties of the specification
    stated over it, followed by further properties of the same code.

    Conventions.
    - Python objects that are shared and mutated ([ChaoxingProcess], with the
      console it owns) live in a heap indexed by references; the registry
      list [Multitasking.tasks] holds references, and [is]/[==] on such
      objects is equality of references.
    - [time.time()] is read from an explicit argument [now], in seconds.
    - A Python call that can raise returns a [result].
    - Starting threads, logging and printing to the real terminal are not
      part of the model. *)

From Stdlib Require Import ZArith Ascii String List.
From stdpp Require Import base decidable option numbers strings list gmap.

Local Open Scope string_scope.
Local Open Scope list_scope.
Local Open Scope nat_scope.

(** ** Results of fallible calls *)

Inductive exn : Type :=
| AttributeError   (* attribute access on [None] *)
| ValueError.      (* [list.remove(x)]: x not in list *)

Inductive result (A : Type) : Type :=
| Ok (a : A)
| Raise (e : exn).
Arguments Ok {A} a.
Arguments Raise {A} e.

(** ** [web/utils.py]: process states *)

Inductive ChaoxingProcessState : Type :=
| INIT       (* 0 *)
| RUNNING    (* 1 *)
| SUCCESS    (* 2 *)
| Failed.    (* 3 *)

#[global] Instance ChaoxingProcessState_eq_dec : EqDecision ChaoxingProcessState.
Proof. solve_decision. Defined.

(** ** [collections.deque(maxlen=n)]

    [append] pushes on the right and, when the length then exceeds
    [maxlen], pops one element from the left. *)

Record deque : Type := Deque { maxlen : nat; items : list string }.

Definition deque_new (n : nat) : deque := Deque n [].

Definition deque_append (x : string) (d : deque) : deque :=
  let l := items d ++ [x] in
  if decide (maxlen d < length l) then Deque (maxlen d) (drop 1 l)
  else Deque (maxlen d) l.

(** ** [ChaoxingWebConsole] *)

Record ChaoxingWebConsole : Type := Console {
  mode : bool;                 (* web_mode *)
  output_collector : deque;
  last_output : string
}.

(** [ChaoxingWebConsole.__init__]; [last_output] starts from the class
    attribute [""]. *)
Definition console_init (web_mode : bool) : ChaoxingWebConsole :=
  {| mode := web_mode; output_collector := deque_new 50; last_output := "" |}.

Section Capture.

(** What [collect_output] appends for one [print]: the HTML exported by
    rich with the style rules inlined by BeautifulSoup. Both are external
    libraries; the fragment is a function of what is printed. *)
Variable export_fragment : string -> string.

Definition collect_output (text : string) (c : ChaoxingWebConsole)
  : ChaoxingWebConsole :=
  {| mode := mode c;
     output_collector := deque_append (export_fragment text) (output_collector c);
     last_output := last_output c |}.

(** [ChaoxingWebConsole.print]: captured in web mode, shown on the
    terminal (no change of the object) otherwise. *)
Definition console_print (text : string) (c : ChaoxingWebConsole)
  : ChaoxingWebConsole :=
  if mode c then collect_output text c else c.

Definition console_prints (texts : list string) (c : ChaoxingWebConsole)
  : ChaoxingWebConsole :=
  foldl (fun acc t => console_print t acc) c texts.

End Capture.

(** [get_output]: [None] outside web mode, else ["".join(output_collector)]. *)
Definition get_output (c : ChaoxingWebConsole) : option string :=
  if negb (mode c) then None
  else Some (String.concat "" (items (output_collector c))).

(** [get_update_output]: the returned value, and the console afterwards. *)
Definition get_update_output (c : ChaoxingWebConsole)
  : option string * ChaoxingWebConsole :=
  match get_output c with
  | None => (None, c)
  | Some output =>
      let output := if decide (last_output c = output) then "" else output in
      (Some output,
       {| mode := mode c; output_collector := output_collector c;
          last_output := output |})
  end.

(** ** [ChaoxingProcess]

    The fields the manager reads and writes; [api], [logger] and the TUI
    layouts belong to the task pipeline. The console is owned by exactly one
    process (and points back to it), so it is stored inside the object. *)

Record ChaoxingProcess : Type := Process {
  process_id : string;
  phone : option string;
  state : ChaoxingProcessState;
  begian_time : Z;
  last_refresh_time : Z;
  alive : bool;
  console : ChaoxingWebConsole
}.

(** [ChaoxingProcess.__init__]; both [time.time()] readings are [now]. *)
Definition process_init (pid : string) (ph : option string) (web_mode : bool)
    (now : Z) : ChaoxingProcess :=
  {| process_id := pid; phone := ph; state := INIT;
     begian_time := now; last_refresh_time := now;
     alive := true; console := console_init web_mode |}.

Definition set_state (s : ChaoxingProcessState) (p : ChaoxingProcess)
  : ChaoxingProcess :=
  {| process_id := process_id p; phone := phone p; state := s;
     begian_time := begian_time p; last_refresh_time := last_refresh_time p;
     alive := alive p; console := console p |}.

Definition set_last_refresh_time (t : Z) (p : ChaoxingProcess)
  : ChaoxingProcess :=
  {| process_id := process_id p; phone := phone p; state := state p;
     begian_time := begian_time p; last_refresh_time := t;
     alive := alive p; console := console p |}.

Definition set_alive (b : bool) (p : ChaoxingProcess) : ChaoxingProcess :=
  {| process_id := process_id p; phone := phone p; state := state p;
     begian_time := begian_time p; last_refresh_time := last_refresh_time p;
     alive := b; console := console p |}.

Definition set_console (c : ChaoxingWebConsole) (p : ChaoxingProcess)
  : ChaoxingProcess :=
  {| process_id := process_id p; phone := phone p; state := state p;
     begian_time := begian_time p; last_refresh_time := last_refresh_time p;
     alive := alive p; console := c |}.

Definition to_running : ChaoxingProcess -> ChaoxingProcess := set_state RUNNING.
Definition to_success : ChaoxingProcess -> ChaoxingProcess := set_state SUCCESS.
Definition to_failed : ChaoxingProcess -> ChaoxingProcess := set_state Failed.
Definition to_init : ChaoxingProcess -> ChaoxingProcess := set_state INIT.

(** ** [web/utils.py]: [check_timeout] *)

Definition check_timeout (now : Z) (process : ChaoxingProcess) : bool :=
  if decide (state process = RUNNING) then
    if (now - last_refresh_time process >? 86400)%Z then true else false
  else
    if (now - last_refresh_time process >? 300)%Z then true else false.

(** ** [web/utils.py]: [ChaoxingWebPrompt]

    [input_queue] is the dict [{process_id: value}]; a value is [None] until
    an answer is posted. [ask] returns Python's [None], the posted string, or
    the string ["timeout"]. *)

Module ChaoxingWebPrompt.
Section Ask.

Variable export_fragment : string -> string.

(** [rich.prompt.Prompt.ask] at the terminal: what the operator types. *)
Variable Prompt_ask : string -> string.

Definition ask (text : string) (now : Z) (process : ChaoxingProcess)
    (input_queue : gmap string (option string))
  : option string * ChaoxingProcess * gmap string (option string) :=
  if mode (console process) then
    let pid := process_id process in
    (* not yet in the queue: enter it and print the prompt *)
    let '(process, input_queue) :=
      match input_queue !! pid with
      | None =>
          (set_console (console_print export_fragment text (console process))
                       process,
           <[pid := None]> input_queue)
      | Some _ => (process, input_queue)
      end in
    match input_queue !! pid with
    | Some (Some value) => (Some value, process, delete pid input_queue)
    | _ =>
        if check_timeout now process
        then (Some "timeout", set_alive false process, input_queue)
        else (None, process, input_queue)
    end
  else (Some (Prompt_ask text), process, input_queue).

End Ask.
End ChaoxingWebPrompt.

(** ** The shared store

    [heap] holds every [ChaoxingProcess] object created so far, [tasks] is
    [Multitasking.tasks], [input_queue] is the queue of the global
    [chaoxing_web_prompt]. A worker thread keeps its reference to its
    process after the registry has dropped it. *)

Record World : Type := {
  heap : gmap nat ChaoxingProcess;
  next_ref : nat;
  tasks : list nat;
  input_queue : gmap string (option string)
}.

Definition world_init : World :=
  {| heap := ∅; next_ref := 0; tasks := []; input_queue := ∅ |}.

Definition set_heap (h : gmap nat ChaoxingProcess) (w : World) : World :=
  {| heap := h; next_ref := next_ref w; tasks := tasks w;
     input_queue := input_queue w |}.

Definition set_tasks (ts : list nat) (w : World) : World :=
  {| heap := heap w; next_ref := next_ref w; tasks := ts;
     input_queue := input_queue w |}.

Definition set_input_queue (q : gmap string (option string)) (w : World)
  : World :=
  {| heap := heap w; next_ref := next_ref w; tasks := tasks w;
     input_queue := q |}.

(** Every reference kept in the registry designates an object, and the
    references not yet handed out are unused. In such a store the [None]
    branches of the heap lookups below are never taken; they only make the
    functions total. *)
Definition wf_world (w : World) : Prop :=
  (∀ l : nat, l ∈ tasks w → is_Some (heap w !! l)) ∧
  (∀ l : nat, is_Some (heap w !! l) → l < next_ref w).

(** [for task in tasks: if test(task): return ...]: the first object, in
    list order, that passes the test, with its reference. *)
Fixpoint find_task (test : ChaoxingProcess -> bool)
    (h : gmap nat ChaoxingProcess) (ts : list nat)
  : option (nat * ChaoxingProcess) :=
  match ts with
  | [] => None
  | l :: ts' =>
      match h !! l with
      | Some task => if test task then Some (l, task) else find_task test h ts'
      | None => find_task test h ts'
      end
  end.

(** [list.remove(x)]: drops the first occurrence, [ValueError] if none. *)
Fixpoint list_remove (x : nat) (l : list nat) : result (list nat) :=
  match l with
  | [] => Raise ValueError
  | y :: l' =>
      if decide (y = x) then Ok l'
      else match list_remove x l' with
           | Ok r => Ok (y :: r)
           | Raise e => Raise e
           end
  end.

(** A worker calling [chaoxing_web_prompt.ask(text, self.console)] on the
    object at reference [l]. *)
Definition worker_ask (export_fragment Prompt_ask : string -> string)
    (text : string) (l : nat) (now : Z) (w : World)
  : option (option string * World) :=
  match heap w !! l with
  | None => None
  | Some process =>
      let '(r, process', q) :=
        ChaoxingWebPrompt.ask export_fragment Prompt_ask text now process
                              (input_queue w) in
      Some (r, set_input_queue q (set_heap (<[l := process']> (heap w)) w))
  end.

(** ** [Multitasking] *)

Module Multitasking.

(** [create_process]: a new web-mode object (no [phone] is passed), put at
    the end of [tasks]. *)
Definition create_process (pid : string) (now : Z) (w : World) : World :=
  let l := next_ref w in
  {| heap := <[l := process_init pid None true now]> (heap w);
     next_ref := S l;
     tasks := tasks w ++ [l];
     input_queue := input_queue w |}.

Definition get_process (pid : string) (w : World)
  : option (nat * ChaoxingProcess) :=
  find_task (fun task => bool_decide (process_id task = pid))
            (heap w) (tasks w).

Definition get_process_id (ph : string) (w : World) : option string :=
  match find_task (fun task => bool_decide (phone task = Some ph))
                  (heap w) (tasks w) with
  | Some (_, task) => Some (process_id task)
  | None => None
  end.

End Multitasking.

(** ** [GarbageCollector]

    One pass of the [for task in self.multitasking.tasks] loop of [run]. The
    list iterator keeps an index [i] into the live list: it stops when
    [i] is past the end, otherwise yields [tasks[i]] and moves to [i + 1].
    [None] means the fuel ran out before the iterator was exhausted. *)

Module GarbageCollector.

Fixpoint sweep (fuel : nat) (now : Z) (i : nat) (w : World)
  : option (result World) :=
  match tasks w !! i with
  | None => Some (Ok w)
  | Some l =>
      match fuel with
      | 0 => None
      | S fuel' =>
          match heap w !! l with
          | None => sweep fuel' now (S i) w
          | Some task =>
              if check_timeout now task then
                let w1 := set_heap (<[l := set_alive false task]> (heap w)) w in
                match list_remove l (tasks w1) with
                | Ok ts => sweep fuel' now (S i) (set_tasks ts w1)
                | Raise e => Some (Raise e)
                end
              else sweep fuel' now (S i) w
          end
      end
  end.

(** One tick: the loop body of [run] up to [time.sleep]. *)
Definition tick (now : Z) (w : World) : option (result World) :=
  sweep (length (tasks w)) now 0 w.

End GarbageCollector.

(** ** [app.py]: route handlers over the global [multitasking] and
    [chaoxing_web_prompt] *)

Inductive response : Type :=
| Success                                   (* {"status": "success"} *)
| SuccessProcessId (pid : string)           (* ... "process_id": pid *)
| SuccessOutput (output : option string)    (* ... "output": output *)
| Error (message : string).                 (* {"status": "error", "message": m} *)

Module App.

(** [create_process()]; [uuid4_hex] is the value of [uuid.uuid4().hex]. *)
Definition create_process (uuid4_hex : string) (now : Z) (w : World)
  : string * World :=
  (uuid4_hex, Multitasking.create_process uuid4_hex now w).

Definition get_process_id (ph : string) (uuid4_hex : string) (now : Z)
    (w : World) : response * World :=
  match Multitasking.get_process_id ph w with
  | Some pid => (SuccessProcessId pid, w)
  | None =>
      let '(pid, w') := create_process uuid4_hex now w in
      (SuccessProcessId pid, w')
  end.

Definition get_process_output (pid : string) (w : World) : result response :=
  match Multitasking.get_process pid w with
  | None => Raise AttributeError     (* None.console *)
  | Some (_, process) => Ok (SuccessOutput (get_output (console process)))
  end.

Definition update_process_refresh_time (pid : string) (now : Z) (w : World)
  : response * World :=
  match Multitasking.get_process pid w with
  | None => (Error ("No process found with id " +:+ pid), w)
  | Some (l, process) =>
      (Success,
       set_heap (<[l := set_last_refresh_time now process]> (heap w)) w)
  end.

Definition send_value (pid : string) (value : string) (w : World)
  : response * World :=
  match input_queue w !! pid with
  | Some _ => (Success, set_input_queue (<[pid := Some value]> (input_queue w)) w)
  | None => (Success, w)
  end.

End App.

(** ** [app.py]: [comm_stream_generator]

    A message is the dict [{"update": update, "output": output_new}] before
    [json.dumps] and the ["data: ...\n\n"] framing. One turn of the
    [while True] loop reads the console through the registry, so it raises
    when the registry has no such process; only [ConnectionResetError] and
    [BrokenPipeError] are caught by the loop. *)

Record message : Type := Message { update : bool; output : option string }.

Definition comm_stream_step (pid : string) (w : World)
  : result (message * World) :=
  match Multitasking.get_process pid w with
  | None => Raise AttributeError     (* None.console *)
  | Some (l, process) =>
      let '(output_new, c) := get_update_output (console process) in
      Ok ({| update := if decide (output_new = Some "") then false else true;
             output := output_new |},
          set_heap (<[l := set_console c process]> (heap w)) w)
  end.

(** The first [n] turns: the messages yielded, then the store, or the
    exception that ended the generator. *)
Fixpoint comm_stream_generator (n : nat) (pid : string) (w : World)
  : list message * result World :=
  match n with
  | 0 => ([], Ok w)
  | S n' =>
      match comm_stream_step pid w with
      | Raise e => ([], Raise e)
      | Ok (m, w') =>
          let '(ms, r) := comm_stream_generator n' pid w' in (m :: ms, r)
      end
  end.

(** ** [GarbageCollector.run]: the [while self.RUNFlAG] loop

    One tick per clock reading of [nows]; the sleeps in between are where
    the other threads run. *)
Fixpoint GarbageCollector_run (nows : list Z) (w : World)
  : option (result World) :=
  match nows with
  | [] => Some (Ok w)
  | now :: nows' =>
      match GarbageCollector.tick now w with
      | Some (Ok w') => GarbageCollector_run nows' w'
      | r => r
      end
  end.

(** ** [ChaoxingWebConsole.parse_css] and [styles_to_string]

    A Python dict is kept as the list of its items in insertion order;
    assigning to a key that is present replaces the value where it stands. *)

Fixpoint dict_set {V : Type} (k : string) (v : V) (d : list (string * V))
  : list (string * V) :=
  match d with
  | [] => [(k, v)]
  | (k', v') :: d' =>
      if decide (k' = k) then (k, v) :: d' else (k', v') :: dict_set k v d'
  end.

Fixpoint dict_get {V : Type} (k : string) (d : list (string * V)) : option V :=
  match d with
  | [] => None
  | (k', v') :: d' => if decide (k' = k) then Some v' else dict_get k d'
  end.

(** [sep in s] for a one-character [sep]. *)
Fixpoint str_contains (sep : ascii) (s : string) : bool :=
  match s with
  | EmptyString => false
  | String c s' => if decide (c = sep) then true else str_contains sep s'
  end.

(** [s.split(sep)] for a one-character [sep]. *)
Fixpoint str_split (sep : ascii) (s : string) : list string :=
  match s with
  | EmptyString => [""]
  | String c s' =>
      if decide (c = sep) then "" :: str_split sep s'
      else match str_split sep s' with
           | [] => [String c ""]
           | piece :: pieces => String c piece :: pieces
           end
  end.

Definition bind {A B : Type} (r : result A) (f : A -> result B) : result B :=
  match r with
  | Ok a => f a
  | Raise e => Raise e
  end.

Section Css.

(** [str.strip()], Python's removal of leading and trailing whitespace. *)
Variable strip : string -> string.

(** The inner loop [for style in styles.split(';')]; unpacking
    [style.split(':')] into two names raises [ValueError] unless there are
    exactly two pieces. *)
Definition parse_style (style_dict : list (string * string)) (style : string)
  : result (list (string * string)) :=
  if str_contains ":" style then
    match str_split ":" style with
    | [property; value] => Ok (dict_set (strip property) (strip value) style_dict)
    | _ => Raise ValueError
    end
  else Ok style_dict.

Definition parse_styles (styles : string) : result (list (string * string)) :=
  foldl (fun acc style => bind acc (fun d => parse_style d style))
        (Ok []) (str_split ";" styles).

(** The body of [for line in css.split('\n')]. *)
Definition parse_line (css_dict : list (string * list (string * string)))
    (line : string) : result (list (string * list (string * string))) :=
  if str_contains "{" line && str_contains "}" line then
    match str_split "{" line with
    | [selector; styles] =>
        let selector := strip selector in
        let styles := strip (hd "" (str_split "}" styles)) in
        bind (parse_styles styles)
             (fun style_dict => Ok (dict_set selector style_dict css_dict))
    | _ => Raise ValueError
    end
  else Ok css_dict.

Definition parse_css (css : string)
  : result (list (string * list (string * string))) :=
  foldl (fun acc line => bind acc (fun d => parse_line d line))
        (Ok []) (str_split "010" css).

End Css.

(** ['; '.join(f'{k}: {v}' for k, v in styles.items())] *)
Definition styles_to_string (styles : list (string * string)) : string :=
  String.concat "; " (map (fun kv => kv.1 +:+ ": " +:+ kv.2) styles).

(** ** Vocabulary of the statements below *)

(** The four methods of [ChaoxingProcess] that assign [state]. *)
Inductive state_method : Type := ToRunning | ToSuccess | ToFailed | ToInit.

Definition call (m : state_method) : ChaoxingProcess -> ChaoxingProcess :=
  match m with
  | ToRunning => to_running
  | ToSuccess => to_success
  | ToFailed => to_failed
  | ToInit => to_init
  end.

Definition target (m : state_method) : ChaoxingProcessState :=
  match m with
  | ToRunning => RUNNING
  | ToSuccess => SUCCESS
  | ToFailed => Failed
  | ToInit => INIT
  end.

(** The reverse moves along Init → Running → {Success, Failed}: back to
    Init from any later state, back to Running from a terminal state. *)
Definition reverse_move (s s' : ChaoxingProcessState) : Prop :=
  (s ≠ INIT ∧ s' = INIT) ∨ ((s = SUCCESS ∨ s = Failed) ∧ s' = RUNNING).

(** The timeout table of the specification, in seconds. *)
Definition max_idle (s : ChaoxingProcessState) : Z :=
  match s with
  | RUNNING => 86400
  | INIT | SUCCESS | Failed => 300
  end.

(** What [ask] returns, and does to the process, when no answer is posted. *)
Definition no_answer (now : Z) (p : ChaoxingProcess) : option string :=
  if check_timeout now p then Some "timeout" else None.

Definition after_no_answer (now : Z) (p : ChaoxingProcess)
  : ChaoxingProcess :=
  if check_timeout now p then set_alive false p else p.

(** Whether the collector's test flags the object at a reference. *)
Definition timed_out (now : Z) (h : gmap nat ChaoxingProcess) (l : nat) : bool :=
  match h !! l with
  | Some p => check_timeout now p
  | None => false
  end.

(** What a pass that removes while it iterates leaves of a list: a flagged
    element is dropped, and the element right after a dropped one is passed
    over, flagged or not. [skip] tells that the previous element was
    dropped. *)
Fixpoint skip_sweep_from (flagged : nat -> bool) (skip : bool) (l : list nat)
  : list nat :=
  match l with
  | [] => []
  | x :: l' =>
      if skip then x :: skip_sweep_from flagged false l'
      else if flagged x then skip_sweep_from flagged true l'
      else x :: skip_sweep_from flagged false l'
  end.

Definition skip_sweep (flagged : nat -> bool) (l : list nat) : list nat :=
  skip_sweep_from flagged false l.

(** ** The operations that act on the shared store

    The route handlers of [app.py], a collector tick, and what a worker
    thread does to its own process object, each taken as one step. *)

Inductive operation : Type :=
| GetProcessId (ph uuid4_hex : string) (now : Z)  (* GET /get_process_id *)
| StreamTurn (pid : string)                       (* one turn of /comm_stream *)
| RefreshTime (pid : string) (now : Z)            (* /update_process_refresh_time *)
| SendValue (pid value : string)                  (* GET /send_value *)
| Tick (now : Z)                                  (* GarbageCollector *)
| WorkerAsk (text : string) (l : nat) (now : Z)   (* chaoxing_web_prompt.ask *)
| WorkerPrint (text : string) (l : nat)           (* console.print *)
| WorkerState (m : state_method) (l : nat).   (* to_running, ... *)

Section Operations.

Variables export_fragment Prompt_ask : string -> string.

(** A step that raises leaves the store as it found it. *)
Definition run_operation (o : operation) (w : World) : World :=
  match o with
  | GetProcessId ph uuid4_hex now => (App.get_process_id ph uuid4_hex now w).2
  | StreamTurn pid =>
      match comm_stream_step pid w with Ok (_, w') => w' | Raise _ => w end
  | RefreshTime pid now => (App.update_process_refresh_time pid now w).2
  | SendValue pid value => (App.send_value pid value w).2
  | Tick now =>
      match GarbageCollector.tick now w with Some (Ok w') => w' | _ => w end
  | WorkerAsk text l now =>
      match worker_ask export_fragment Prompt_ask text l now w with
      | Some (_, w') => w'
      | None => w
      end
  | WorkerPrint text l =>
      set_heap
        (alter (fun p => set_console
                           (console_print export_fragment text (console p)) p)
               l (heap w)) w
  | WorkerState m l => set_heap (alter (call m) l (heap w)) w
  end.

Definition run_operations (os : list operation) (w : World) : World :=
  foldl (fun acc o => run_operation o acc) w os.

(** The polling loop a caller of [ask] runs: one call per clock reading,
    the answers collected in order. *)
Fixpoint ask_poll (text : string) (nows : list Z) (p : ChaoxingProcess)
    (q : gmap string (option string))
  : list (option string) * ChaoxingProcess * gmap string (option string) :=
  match nows with
  | [] => ([], p, q)
  | now :: nows' =>
      let '(r, p1, q1) :=
        ChaoxingWebPrompt.ask export_fragment Prompt_ask text now p q in
      let '(rs, p2, q2) := ask_poll text nows' p1 q1 in
      (r :: rs, p2, q2)
  end.

End Operations.

(** The messages of a stream over an unchanging non-empty output [full]:
    the whole output and an empty "no update" in turn, starting with the
    whole output when [resend] is set. *)
Fixpoint stream_pattern (full : string) (resend : bool) (n : nat)
  : list message :=
  match n with
  | 0 => []
  | S n' =>
      (if resend then Message true (Some full) else Message false (Some ""))
        :: stream_pattern full (negb resend) n'
  end.

(** What stays of a process object while it lives: its identity fields,
    its console's mode, and death. *)
Definition evolves (p p' : ChaoxingProcess) : Prop :=
  process_id p' = process_id p ∧ phone p' = phone p ∧
  begian_time p' = begian_time p ∧
  mode (console p') = mode (console p) ∧
  (alive p = false → alive p' = false).

(** A store as the manager builds it: well formed, no reference listed
    twice, every object a web-mode process whose buffer is a
    [deque(maxlen=50)] within its bound. *)
Definition store_ok (w : World) : Prop :=
  wf_world w ∧ NoDup (tasks w) ∧
  ∀ l p, heap w !! l = Some p →
    mode (console p) = true ∧
    maxlen (output_collector (console p)) = 50 ∧
    length (items (output_collector (console p))) ≤ 50.

(** How many times a character occurs in a string. *)
Fixpoint str_count (sep : ascii) (s : string) : nat :=
  match s with
  | EmptyString => 0
  | String c s' => (if decide (c = sep) then 1 else 0) + str_count sep s'
  end.

(** The lines [parse_css] cannot unpack: a line with both braces that has
    more than one opening brace, or whose declarations (the text up to the
    first closing brace, stripped, cut at semicolons) include one with more
    than one colon. *)
Definition bad_line (strip : string -> string) (line : string) : Prop :=
  str_contains "{" line = true ∧ str_contains "}" line = true ∧
  (str_count "{" line ≠ 1 ∨
   ∃ selector styles,
     str_split "{" line = [selector; styles] ∧
     ∃ style,
       style ∈ str_split ";" (strip (hd "" (str_split "}" styles))) ∧
       2 ≤ str_count ":" style).

(** * Properties *)

(** ** Output capture *)

Lemma get_output_web (c : ChaoxingWebConsole) :
  mode c = true →
  get_output c = Some (String.concat "" (items (output_collector c))).
Proof. intros Hm. unfold get_output. by rewrite Hm. Qed.

(** What one [get_update_output] call does in web mode: the value returned
    is also the value stored in [last_output]. *)
Lemma get_update_output_web (c : ChaoxingWebConsole) (full : string) :
  get_output c = Some full →
  get_update_output c =
    (Some (if decide (last_output c = full) then "" else full),
     {| mode := mode c; output_collector := output_collector c;
        last_output := if decide (last_output c = full) then "" else full |}).
Proof. intros Hf. unfold get_update_output. by rewrite Hf. Qed.

(** After a call that reported no change on a non-empty buffer, the stored
    snapshot is the empty string, not the buffer. *)
Lemma get_update_output_quiet_call_clears_snapshot (c : ChaoxingWebConsole)
    (full : string) :
  get_output c = Some full → last_output c = full →
  (get_update_output c).1 = Some "" ∧
  last_output (get_update_output c).2 = "".
Proof.
  intros Hf Hl. rewrite (get_update_output_web c full Hf). simpl.
  by rewrite decide_True.
Qed.

(** C1 (evaluation of the code). A web-mode console holding the fragments
    "A" and "B" is polled three times with nothing appended in between: the
    calls return "AB", then "", then "AB" again. The second call stores the
    empty string it returns as the snapshot, so the third call sees a
    difference and resends the whole output. *)
Theorem get_update_output_third_call_resends :
  let c0 := {| mode := true; output_collector := Deque 50 ["A"; "B"];
               last_output := "" |} in
  let c1 := (get_update_output c0).2 in
  let c2 := (get_update_output c1).2 in
  (get_update_output c0).1 = Some "AB" ∧
  (get_update_output c1).1 = Some "" ∧
  get_output c2 = Some "AB" ∧ last_output c2 = "" ∧
  (get_update_output c2).1 = Some "AB".
Proof. vm_compute. repeat split. Qed.

Section Capture_facts.

Variable export_fragment : string -> string.

Lemma deque_append_items (x : string) (d : deque) :
  length (items d) ≤ maxlen d →
  items (deque_append x d) =
    drop (length (items d ++ [x]) - maxlen d) (items d ++ [x]).
Proof.
  intros Hle. unfold deque_append. cbv zeta.
  rewrite length_app in *. simpl length in *.
  case_decide; simpl.
  - by replace (length (items d) + 1 - maxlen d) with 1 by lia.
  - by replace (length (items d) + 1 - maxlen d) with 0 by lia.
Qed.

Lemma deque_append_maxlen (x : string) (d : deque) :
  maxlen (deque_append x d) = maxlen d.
Proof. unfold deque_append. cbv zeta. by case_decide. Qed.

Lemma deque_append_bounded (x : string) (d : deque) :
  length (items d) ≤ maxlen d →
  length (items (deque_append x d)) ≤ maxlen d.
Proof.
  intros Hle. unfold deque_append. cbv zeta.
  case_decide as Hc; simpl; rewrite ?length_drop; rewrite length_app in *;
    simpl in *; lia.
Qed.

Lemma console_print_mode (t : string) (c : ChaoxingWebConsole) :
  mode (console_print export_fragment t c) = mode c.
Proof. unfold console_print. by destruct (mode c) eqn:E. Qed.

(** Printing a list of texts on a web console whose buffer respects its
    bound keeps the last [maxlen] fragments of everything. *)
Lemma console_prints_items (ts : list string) : ∀ c : ChaoxingWebConsole,
  mode c = true →
  length (items (output_collector c)) ≤ maxlen (output_collector c) →
  let c' := console_prints export_fragment ts c in
  let all := items (output_collector c) ++ map export_fragment ts in
  mode c' = true ∧
  maxlen (output_collector c') = maxlen (output_collector c) ∧
  items (output_collector c') =
    drop (length all - maxlen (output_collector c)) all.
Proof.
  induction ts as [|t ts IH]; intros c Hm Hle; cbv zeta.
  - simpl. rewrite app_nil_r.
    replace (_ - _) with 0 by lia. done.
  - simpl console_prints.
    set (c1 := console_print export_fragment t c).
    assert (Hm1 : mode c1 = true) by (by unfold c1; rewrite console_print_mode).
    assert (Hc1 : output_collector c1 =
                  deque_append (export_fragment t) (output_collector c)).
    { unfold c1, console_print. by rewrite Hm. }
    assert (Hle1 : length (items (output_collector c1))
                   ≤ maxlen (output_collector c1)).
    { rewrite Hc1, deque_append_maxlen. by apply deque_append_bounded. }
    destruct (IH c1 Hm1 Hle1) as (Hm' & Hmax & Hit).
    split; [done|]. split.
    { by rewrite Hmax, Hc1, deque_append_maxlen. }
    rewrite Hit, Hc1, deque_append_maxlen, deque_append_items by done.
    set (n := maxlen (output_collector c)) in *.
    set (l := items (output_collector c) ++ [export_fragment t]).
    simpl map.
    replace (items (output_collector c) ++ export_fragment t :: map export_fragment ts)
      with (l ++ map export_fragment ts)
      by (unfold l; by rewrite <- app_assoc).
    assert (Hl : length l = S (length (items (output_collector c)))).
    { unfold l. rewrite length_app. simpl. lia. }
    rewrite <- (drop_app_le l (map export_fragment ts)) by lia.
    rewrite drop_drop. f_equal.
    rewrite length_drop, !length_app. lia.
Qed.

(** C7. A web console starts with an empty buffer of capacity 50. After
    any sequence of prints the buffer holds at most 50 fragments, namely
    the last 50 of those produced, in print order (so after 51 prints the
    first fragment, and only it, is gone), and [get_output] is their
    concatenation from oldest to newest. *)
Theorem output_buffer_keeps_last_50 (ts : list string) :
  let c := console_prints export_fragment ts (console_init true) in
  let fs := map export_fragment ts in
  length (items (output_collector c)) ≤ 50 ∧
  items (output_collector c) = drop (length fs - 50) fs ∧
  get_output c = Some (String.concat "" (drop (length fs - 50) fs)).
Proof.
  cbv zeta.
  destruct (console_prints_items ts (console_init true)) as (Hm & Hmax & Hit).
  { done. } { simpl. lia. }
  simpl in Hit, Hmax. rewrite Hit. split; [|split; [done|]].
  - rewrite length_drop. lia.
  - by rewrite (get_output_web _ Hm), Hit.
Qed.

End Capture_facts.

(** Fifty-one one-character fragments: the first is dropped, the other
    fifty are kept in order. *)
Example output_buffer_51_fragments :
  let ts := map (fun n => String (Ascii.ascii_of_nat (48 + n)) "") (seq 0 51) in
  items (output_collector (console_prints (fun s => s) ts (console_init true)))
  = drop 1 ts.
Proof. vm_compute. reflexivity. Qed.

(** ** Idle timeout *)

Lemma check_timeout_spec (now : Z) (p : ChaoxingProcess) :
  check_timeout now p = true ↔
  (max_idle (state p) < now - last_refresh_time p)%Z.
Proof.
  unfold check_timeout, max_idle.
  destruct (state p); simpl;
    destruct (Z.gtb_spec (now - last_refresh_time p) 86400);
    destruct (Z.gtb_spec (now - last_refresh_time p) 300);
    split; intros; try done; lia.
Qed.

Lemma check_timeout_false (now : Z) (p : ChaoxingProcess) :
  check_timeout now p = false ↔
  (now - last_refresh_time p ≤ max_idle (state p))%Z.
Proof.
  destruct (check_timeout now p) eqn:E.
  - apply check_timeout_spec in E. split; [done | lia].
  - split; [intros _ | done].
    destruct (Z.le_gt_cases (now - last_refresh_time p) (max_idle (state p)))
      as [H|H]; [done|].
    apply check_timeout_spec in H. congruence.
Qed.

(** ** Prompt bridge *)

Section Prompt_facts.

Variables export_fragment Prompt_ask : string -> string.

Local Abbreviation ask := (ChaoxingWebPrompt.ask export_fragment Prompt_ask).

Lemma ask_no_slot (text : string) (now : Z) (p : ChaoxingProcess)
    (q : gmap string (option string)) :
  mode (console p) = true → q !! process_id p = None →
  ask text now p q =
    (no_answer now p,
     after_no_answer now
       (set_console (collect_output export_fragment text (console p)) p),
     <[process_id p := None]> q).
Proof.
  intros Hm Hq. unfold ChaoxingWebPrompt.ask, no_answer, after_no_answer.
  rewrite Hm, Hq. simpl process_id. rewrite lookup_insert_eq.
  unfold console_print. rewrite Hm.
  change (check_timeout now (set_console _ p)) with (check_timeout now p).
  by destruct (check_timeout now p).
Qed.

Lemma ask_unset_slot (text : string) (now : Z) (p : ChaoxingProcess)
    (q : gmap string (option string)) :
  mode (console p) = true → q !! process_id p = Some None →
  ask text now p q = (no_answer now p, after_no_answer now p, q).
Proof.
  intros Hm Hq. unfold ChaoxingWebPrompt.ask, no_answer, after_no_answer.
  rewrite Hm, Hq. simpl. rewrite Hq.
  by destruct (check_timeout now p).
Qed.

Lemma ask_answered_slot (text : string) (now : Z) (p : ChaoxingProcess)
    (q : gmap string (option string)) (value : string) :
  mode (console p) = true → q !! process_id p = Some (Some value) →
  ask text now p q = (Some value, p, delete (process_id p) q).
Proof.
  intros Hm Hq. unfold ChaoxingWebPrompt.ask.
  rewrite Hm, Hq. simpl. by rewrite Hq.
Qed.

End Prompt_facts.

(** ** Registry and reaper *)

Lemma list_remove_present (x : nat) (l : list nat) :
  x ∈ l →
  ∃ r, list_remove x l = Ok r ∧ S (length r) = length l ∧
       (∀ y, y ∈ r → y ∈ l) ∧ (∀ y, y ≠ x → y ∈ l → y ∈ r).
Proof.
  induction l as [|y l IH]; intros Hin.
  - by apply elem_of_nil in Hin.
  - simpl. destruct (decide (y = x)) as [->|Hne].
    + exists l. repeat split; [by constructor 2 | ].
      intros z Hz Hzin. apply elem_of_cons in Hzin as [?|?]; done.
    + apply elem_of_cons in Hin as [?|Hin]; [done|].
      destruct (IH Hin) as (r & -> & Hlen & Hsub & Hkeep).
      exists (y :: r). simpl. repeat split; [lia | |].
      * intros z Hz. apply elem_of_cons in Hz as [->|Hz];
          [by constructor | constructor 2; auto].
      * intros z Hz Hzin. apply elem_of_cons in Hzin as [->|Hzin];
          [by constructor | constructor 2; auto].
Qed.

(** The sweep ends: with fuel for the part of the list not yet visited it
    returns, and [list.remove] does not raise. *)
Lemma sweep_returns (fuel : nat) (now : Z) : ∀ (i : nat) (w : World),
  length (tasks w) - i ≤ fuel →
  ∃ w', GarbageCollector.sweep fuel now i w = Some (Ok w').
Proof.
  induction fuel as [|fuel IH]; intros i w Hfuel.
  - simpl. destruct (tasks w !! i) eqn:Hi; [|eauto].
    apply lookup_lt_Some in Hi. lia.
  - simpl. destruct (tasks w !! i) as [l|] eqn:Hi; [|eauto].
    pose proof (lookup_lt_Some _ _ _ Hi) as Hlt.
    destruct (heap w !! l) as [task|] eqn:Hl; [|apply IH; lia].
    destruct (check_timeout now task); [|apply IH; lia].
    simpl tasks.
    destruct (list_remove_present l (tasks w)) as (r & -> & Hlen & _).
    { by eapply list_elem_of_lookup_2. }
    apply IH. simpl. lia.
Qed.

Lemma tick_returns (now : Z) (w : World) :
  ∃ w', GarbageCollector.tick now w = Some (Ok w').
Proof. apply sweep_returns. lia. Qed.

Lemma wf_world_init : wf_world world_init.
Proof.
  split; intros l; simpl.
  - intros H. by apply elem_of_nil in H.
  - rewrite lookup_empty. by intros [? ?].
Qed.

Lemma create_process_wf (pid : string) (now : Z) (w : World) :
  wf_world w → wf_world (Multitasking.create_process pid now w).
Proof.
  intros [Hobj Hfresh]. split; intros l; simpl.
  - intros Hl. apply elem_of_app in Hl as [Hl|Hl].
    + destruct (decide (next_ref w = l)) as [->|Hne];
        [by rewrite lookup_insert_eq | rewrite lookup_insert_ne by done; auto].
    + apply list_elem_of_singleton in Hl as ->. by rewrite lookup_insert_eq.
  - destruct (decide (next_ref w = l)) as [<-|Hne]; [lia|].
    rewrite lookup_insert_ne by done. intros Hl. apply Hfresh in Hl. lia.
Qed.

Lemma sweep_wf (fuel : nat) (now : Z) : ∀ (i : nat) (w w' : World),
  GarbageCollector.sweep fuel now i w = Some (Ok w') →
  wf_world w → wf_world w'.
Proof.
  induction fuel as [|fuel IH]; intros i w w' Hs Hwf; simpl in Hs.
  - destruct (tasks w !! i); [done|]. by simplify_eq.
  - destruct (tasks w !! i) as [x|] eqn:Hi; [|by simplify_eq].
    destruct (heap w !! x) as [task|] eqn:Hx; [|by eapply IH].
    destruct (check_timeout now task) eqn:Ht; [|by eapply IH].
    simpl tasks in Hs.
    destruct (list_remove_present x (tasks w)) as (r & Hr & _ & Hsub & _).
    { by eapply list_elem_of_lookup_2. }
    rewrite Hr in Hs. eapply IH; [exact Hs|].
    destruct Hwf as [Hobj Hfresh]. split; intros l; simpl.
    + intros Hl. apply Hsub, Hobj in Hl.
      destruct (decide (x = l)) as [->|Hne];
        [by rewrite lookup_insert_eq | by rewrite lookup_insert_ne].
    + destruct (decide (x = l)) as [<-|Hne].
      * intros _. apply Hfresh. by rewrite Hx.
      * rewrite lookup_insert_ne by done. apply Hfresh.
Qed.

(** A worker that polls past its threshold marks the very object the
    registry still lists: the change is seen through [tasks]. *)
Lemma worker_ask_timeout_marks_shared_object
    (export_fragment Prompt_ask : string -> string) (text : string)
    (l : nat) (now : Z) (w : World) (p : ChaoxingProcess) :
  heap w !! l = Some p → mode (console p) = true →
  input_queue w !! process_id p = Some None →
  check_timeout now p = true →
  ∃ w', worker_ask export_fragment Prompt_ask text l now w
          = Some (Some "timeout", w') ∧
        tasks w' = tasks w ∧
        heap w' !! l = Some (set_alive false p).
Proof.
  intros Hl Hm Hq Ht. unfold worker_ask. rewrite Hl.
  rewrite (ask_unset_slot _ _ text now p _ Hm Hq).
  unfold no_answer, after_no_answer. rewrite Ht.
  eexists. split; [reflexivity|]. simpl. by rewrite lookup_insert_eq.
Qed.

(** A record the predicate does not flag is neither removed nor changed. *)
Lemma sweep_retains (fuel : nat) (now : Z) : ∀ (i : nat) (w w' : World),
  GarbageCollector.sweep fuel now i w = Some (Ok w') →
  ∀ (l : nat) (p : ChaoxingProcess),
    l ∈ tasks w → heap w !! l = Some p → check_timeout now p = false →
    l ∈ tasks w' ∧ heap w' !! l = Some p.
Proof.
  induction fuel as [|fuel IH]; intros i w w' Hs l p Hin Hl Hp; simpl in Hs.
  - destruct (tasks w !! i); [done|]. by simplify_eq.
  - destruct (tasks w !! i) as [x|] eqn:Hi; [|by simplify_eq].
    destruct (heap w !! x) as [task|] eqn:Hx; [|by eapply IH].
    destruct (check_timeout now task) eqn:Ht; [|by eapply IH].
    simpl tasks in Hs.
    assert (Hne : l ≠ x) by (intros ->; congruence).
    destruct (list_remove_present x (tasks w)) as (r & Hr & _ & _ & Hkeep).
    { by eapply list_elem_of_lookup_2. }
    rewrite Hr in Hs. eapply IH; [exact Hs | | | exact Hp].
    + simpl. by apply Hkeep.
    + simpl. by rewrite lookup_insert_ne.
Qed.

(** What the sweep drops from the list, the predicate has flagged. *)
Lemma sweep_removes_only_timed_out (fuel : nat) (now : Z) (i : nat)
    (w w' : World) (l : nat) (p : ChaoxingProcess) :
  GarbageCollector.sweep fuel now i w = Some (Ok w') →
  l ∈ tasks w → heap w !! l = Some p → l ∉ tasks w' →
  check_timeout now p = true.
Proof.
  intros Hs Hin Hl Hout. destruct (check_timeout now p) eqn:Hp; [done|].
  exfalso. by destruct (sweep_retains fuel now i w w' Hs l p Hin Hl Hp).
Qed.

Lemma find_task_Some (test : ChaoxingProcess -> bool)
    (h : gmap nat ChaoxingProcess) (ts : list nat) (l : nat)
    (p : ChaoxingProcess) :
  find_task test h ts = Some (l, p) →
  l ∈ ts ∧ h !! l = Some p ∧ test p = true.
Proof.
  induction ts as [|x ts IH]; simpl; [done|].
  destruct (h !! x) as [task|] eqn:Hx.
  - destruct (test task) eqn:Ht.
    + intros [= <- <-]. split; [by constructor | done].
    + intros H. destruct (IH H) as (? & ? & ?). split; [by constructor 2 | done].
  - intros H. destruct (IH H) as (? & ? & ?). split; [by constructor 2 | done].
Qed.

Lemma find_task_None (test : ChaoxingProcess -> bool)
    (h : gmap nat ChaoxingProcess) (ts : list nat) :
  (∀ l p, l ∈ ts → h !! l = Some p → test p = false) →
  find_task test h ts = None.
Proof.
  induction ts as [|x ts IH]; intros Hall; simpl; [done|].
  destruct (h !! x) as [task|] eqn:Hx.
  - rewrite (Hall x task); [|by constructor|done].
    apply IH. intros l p Hl. apply Hall. by constructor 2.
  - apply IH. intros l p Hl. apply Hall. by constructor 2.
Qed.

(** The lookup that [get_process_id] relies on returns a matching record
    when the registry holds one: then nothing is created. *)
Lemma get_process_id_existing (ph uuid4_hex pid : string) (now : Z)
    (w : World) :
  Multitasking.get_process_id ph w = Some pid →
  App.get_process_id ph uuid4_hex now w = (SuccessProcessId pid, w).
Proof. intros H. unfold App.get_process_id. by rewrite H. Qed.

Lemma find_task_insert_fresh (test : ChaoxingProcess -> bool)
    (h : gmap nat ChaoxingProcess) (ts : list nat) (l : nat)
    (p : ChaoxingProcess) :
  l ∉ ts →
  find_task test (<[l := p]> h) (ts ++ [l]) =
    match find_task test h ts with
    | Some r => Some r
    | None => if test p then Some (l, p) else None
    end.
Proof.
  induction ts as [|x ts IH]; intros Hl; simpl.
  - by rewrite lookup_insert_eq.
  - apply not_elem_of_cons in Hl as [Hne Hl].
    rewrite lookup_insert_ne by done.
    destruct (h !! x) as [task|]; [destruct (test task); [done|]|]; by apply IH.
Qed.

(** A record made by [create_process] carries no phone: a key that matched
    nothing before the creation matches nothing after it. *)
Lemma create_process_not_found_by_phone (ph uuid4_hex : string) (now : Z)
    (w : World) :
  wf_world w →
  Multitasking.get_process_id ph w = None →
  Multitasking.get_process_id ph (App.create_process uuid4_hex now w).2 = None.
Proof.
  intros [Hobj Hfresh]. unfold Multitasking.get_process_id. simpl.
  rewrite find_task_insert_fresh.
  - destruct (find_task _ (heap w) (tasks w)) as [[? ?]|]; done.
  - intros Hin. apply Hobj, Hfresh in Hin. lia.
Qed.

(** C2 (evaluation of the code). Two records are created at time 0 and
    never refreshed; both are in state Init, so at time 301 both have
    exceeded the 300 s threshold. One tick of the collector removes the
    first and marks it dead; the removal shifts the second into the slot
    the list iterator has already passed, so the second is not visited: it
    stays in the registry with [alive = True]. *)
Theorem gc_tick_skips_record_after_removed_one :
  let w := Multitasking.create_process "p2" 0
             (Multitasking.create_process "p1" 0 world_init) in
  tasks w = [0; 1] ∧
  check_timeout 301 <$> heap w !! 0 = Some true ∧
  check_timeout 301 <$> heap w !! 1 = Some true ∧
  ∃ w', GarbageCollector.tick 301 w = Some (Ok w') ∧
        tasks w' = [1] ∧
        alive <$> heap w' !! 0 = Some false ∧
        alive <$> heap w' !! 1 = Some true.
Proof.
  cbv zeta. repeat split; try (vm_compute; reflexivity).
  eexists. split; [vm_compute; reflexivity|].
  repeat split; vm_compute; reflexivity.
Qed.

(** C3 (evaluation of the code). On an empty registry [get_process_id] is
    called twice with the same phone. The first call creates a record, but
    [create_process] does not pass the phone on, so the record's [phone] is
    [None]; the second call finds no match, creates a second record and
    returns the second id. *)
Theorem get_process_id_twice_creates_two :
  let c1 := App.get_process_id "13800000000" "u1" 0 world_init in
  let c2 := App.get_process_id "13800000000" "u2" 1 c1.2 in
  c1.1 = SuccessProcessId "u1" ∧
  phone <$> heap c1.2 !! 0 = Some None ∧
  c2.1 = SuccessProcessId "u2" ∧
  tasks c2.2 = [0; 1] ∧
  process_id <$> heap c2.2 !! 0 = Some "u1" ∧
  process_id <$> heap c2.2 !! 1 = Some "u2".
Proof. cbv zeta. repeat split; vm_compute; reflexivity. Qed.

(** C10. When no record of the registry has the given id, [get_process]
    returns [None]; [get_process_output] then reads [.console] of that
    [None] and raises instead of returning a string, while
    [update_process_refresh_time] tests for [None] and answers with an error
    status, leaving everything as it was. *)
Theorem missing_process_lookup (pid : string) (w : World) :
  (∀ l p, l ∈ tasks w → heap w !! l = Some p → process_id p ≠ pid) →
  Multitasking.get_process pid w = None ∧
  App.get_process_output pid w = Raise AttributeError ∧
  ∀ now, App.update_process_refresh_time pid now w =
           (Error ("No process found with id " +:+ pid), w).
Proof.
  intros Hnone.
  assert (Hg : Multitasking.get_process pid w = None).
  { apply find_task_None. intros l p Hl Hp.
    apply bool_decide_eq_false. by eapply Hnone. }
  split; [done|].
  unfold App.get_process_output, App.update_process_refresh_time.
  by rewrite Hg.
Qed.

Lemma missing_process_lookup_witness :
  let w := Multitasking.create_process "p1" 0 world_init in
  Multitasking.get_process "p2" w = None ∧
  App.get_process_output "p2" w = Raise AttributeError ∧
  ∀ now, App.update_process_refresh_time "p2" now w =
           (Error "No process found with id p2", w).
Proof.
  apply (missing_process_lookup "p2"
           (Multitasking.create_process "p1" 0 world_init)).
  intros l p Hl Hp. simpl in Hl. apply list_elem_of_singleton in Hl. subst l.
  simpl in Hp. rewrite lookup_insert_eq in Hp. by simplify_eq.
Defined.

(** A present id, for contrast: both handlers succeed. *)
Example present_process_lookup :
  let w := Multitasking.create_process "p1" 0 world_init in
  App.get_process_output "p1" w = Ok (SuccessOutput (Some "")) ∧
  (App.update_process_refresh_time "p1" 7 w).1 = Success.
Proof. split; vm_compute; reflexivity. Qed.

(** ** Prompt bridge, idle timeout and state methods: main statements *)

Section Bridge_statements.

Variables export_fragment Prompt_ask : string -> string.

Local Abbreviation ask := (ChaoxingWebPrompt.ask export_fragment Prompt_ask).

(** C4 (amended). For a web-mode process with no entry in the input queue,
    [ask] creates the entry with an unset value and appends the rendered
    prompt to the process's output buffer; it then returns [None] ("no
    answer yet") when the process is within its idle threshold, and
    otherwise, on this same call, sets [alive] to false and returns
    "timeout". *)
Theorem ask_creates_slot_then_checks_timeout (text : string) (now : Z)
    (p : ChaoxingProcess) (q : gmap string (option string)) :
  mode (console p) = true → q !! process_id p = None →
  (ask text now p q).2 = <[process_id p := None]> q ∧
  output_collector (console (ask text now p q).1.2) =
    deque_append (export_fragment text) (output_collector (console p)) ∧
  (ask text now p q).1.1 =
    (if check_timeout now p then Some "timeout" else None) ∧
  alive (ask text now p q).1.2 =
    (if check_timeout now p then false else alive p).
Proof.
  intros Hm Hq. rewrite (ask_no_slot _ _ text now p q Hm Hq).
  unfold no_answer, after_no_answer.
  change (check_timeout now (set_console _ p)) with (check_timeout now p).
  by destruct (check_timeout now p).
Qed.

(** C5 (amended). The queue is a map, so an id has at most one entry. In
    web mode, when the entry holds a posted answer [ask] returns it and
    removes the entry in the same step, and the next [ask] for the id takes
    the no-answer branch again; when no answer is posted [ask] leaves an
    unset entry for the id in the queue, both when it returns [None] and
    when it returns "timeout" (with [alive] set to false). *)
Theorem ask_slot_lifetime (text : string) (now : Z) (p : ChaoxingProcess)
    (q : gmap string (option string)) :
  mode (console p) = true →
  (∀ v1 v2, (ask text now p q).2 !! process_id p = Some v1 →
            (ask text now p q).2 !! process_id p = Some v2 → v1 = v2) ∧
  (∀ value, q !! process_id p = Some (Some value) →
     ask text now p q = (Some value, p, delete (process_id p) q) ∧
     (ask text now p q).2 !! process_id p = None ∧
     ∀ text' now',
       (ask text' now' (ask text now p q).1.2 (ask text now p q).2).1.1 =
         (if check_timeout now' p then Some "timeout" else None)) ∧
  ((∀ value, q !! process_id p ≠ Some (Some value)) →
     (ask text now p q).2 !! process_id p = Some None ∧
     (ask text now p q).1.1 =
       (if check_timeout now p then Some "timeout" else None) ∧
     alive (ask text now p q).1.2 =
       (if check_timeout now p then false else alive p)).
Proof.
  intros Hm. split; [intros; congruence|]. split.
  - intros value Hq. rewrite (ask_answered_slot _ _ text now p q value Hm Hq).
    simpl. split; [done|]. split; [apply lookup_delete_eq|].
    intros text' now'. rewrite ask_no_slot; [done..|apply lookup_delete_eq].
  - intros Hq. destruct (q !! process_id p) as [[value|]|] eqn:E.
    + by destruct (Hq value).
    + rewrite (ask_unset_slot _ _ text now p q Hm E).
      unfold no_answer, after_no_answer. simpl.
      by destruct (check_timeout now p).
    + rewrite (ask_no_slot _ _ text now p q Hm E).
      unfold no_answer, after_no_answer. simpl.
      change (check_timeout now (set_console _ p)) with (check_timeout now p).
      rewrite lookup_insert_eq. by destruct (check_timeout now p).
Qed.

(** C6. [check_timeout] holds exactly when the idle time [now -
    last_refresh_time] is strictly above 86400 s for a Running process and
    strictly above 300 s for an Init, Success or Failed one; at an idle time
    equal to the threshold it is false. [ask], when no answer is posted,
    returns "timeout" and sets [alive] to false exactly under this
    predicate, and a collector tick keeps, unchanged, every record for
    which the predicate is false: what a tick removes has exceeded its
    threshold. *)
Theorem idle_timeout_thresholds (now : Z) (p : ChaoxingProcess) :
  (check_timeout now p = true ↔
     (max_idle (state p) < now - last_refresh_time p)%Z) ∧
  check_timeout (last_refresh_time p + max_idle (state p)) p = false ∧
  (∀ text q,
     mode (console p) = true →
     (∀ value, q !! process_id p ≠ Some (Some value)) →
     ((ask text now p q).1.1 = Some "timeout" ∧
        alive (ask text now p q).1.2 = false ∧
        (max_idle (state p) < now - last_refresh_time p)%Z)
     ∨ ((ask text now p q).1.1 = None ∧
        alive (ask text now p q).1.2 = alive p ∧
        (now - last_refresh_time p ≤ max_idle (state p))%Z)) ∧
  (∀ w l,
     l ∈ tasks w → heap w !! l = Some p →
     ∃ w', GarbageCollector.tick now w = Some (Ok w') ∧
           ((now - last_refresh_time p ≤ max_idle (state p))%Z →
              l ∈ tasks w' ∧ heap w' !! l = Some p) ∧
           (l ∉ tasks w' →
              (max_idle (state p) < now - last_refresh_time p)%Z)).
Proof.
  split; [apply check_timeout_spec|]. split.
  { apply check_timeout_false. lia. }
  split.
  - intros text q Hm Hq.
    assert (Hr : (ask text now p q).1.1 = no_answer now p ∧
                 alive (ask text now p q).1.2 =
                   (if check_timeout now p then false else alive p)).
    { destruct (q !! process_id p) as [[value|]|] eqn:E.
      - by destruct (Hq value).
      - rewrite (ask_unset_slot _ _ text now p q Hm E).
        unfold after_no_answer. simpl. by destruct (check_timeout now p).
      - rewrite (ask_no_slot _ _ text now p q Hm E).
        unfold after_no_answer. simpl.
        change (check_timeout now (set_console _ p)) with (check_timeout now p).
        by destruct (check_timeout now p). }
    destruct Hr as [-> ->]. unfold no_answer.
    destruct (check_timeout now p) eqn:Ht.
    + left. by apply check_timeout_spec in Ht.
    + right. by apply check_timeout_false in Ht.
  - intros w l Hin Hl. destruct (tick_returns now w) as [w' Hw'].
    exists w'. split; [done|]. split.
    + intros Hle. apply check_timeout_false in Hle.
      by eapply sweep_retains.
    + intros Hout. apply check_timeout_spec.
      by eapply sweep_removes_only_timed_out.
Qed.

(** C8. When the queue has no entry for the id, [send_value] changes
    nothing: no entry is created, and an [ask] made afterwards for a
    web-mode process with that id takes the no-answer branch (it returns
    [None] while the process is within its idle threshold, never the value
    that was sent) and leaves an unset entry. When an entry exists,
    [send_value] sets its value. *)
Theorem send_value_never_creates_slot (pid value : string) (w : World) :
  (input_queue w !! pid = None →
     App.send_value pid value w = (Success, w) ∧
     input_queue (App.send_value pid value w).2 !! pid = None ∧
     ∀ text now p,
       process_id p = pid → mode (console p) = true →
       let r := ask text now p (input_queue (App.send_value pid value w).2) in
       r.1.1 = (if check_timeout now p then Some "timeout" else None) ∧
       (check_timeout now p = false → r.1.1 = None) ∧
       r.2 !! pid = Some None) ∧
  (∀ old, input_queue w !! pid = Some old →
     App.send_value pid value w =
       (Success, set_input_queue (<[pid := Some value]> (input_queue w)) w) ∧
     input_queue (App.send_value pid value w).2 !! pid = Some (Some value)).
Proof.
  split.
  - intros Hq. unfold App.send_value. rewrite Hq. simpl.
    split; [done|]. split; [done|].
    intros text now p <- Hm. cbv zeta.
    rewrite (ask_no_slot _ _ text now p _ Hm Hq). simpl.
    unfold no_answer. rewrite lookup_insert_eq.
    split; [done|]. split; [|done]. by intros ->.
  - intros old Hq. unfold App.send_value. rewrite Hq. simpl.
    by rewrite lookup_insert_eq.
Qed.

(** C9 (amended). [state] is assigned only by [to_running], [to_success],
    [to_failed] and [to_init], each of which stores its own target state
    whatever the current state is; [ask], the heartbeat and marking a
    process dead leave [state] as it is. So a call is a reverse move along
    Init → Running → {Success, Failed} exactly when it is [to_init] on a
    process that is not in Init, or [to_running] on a process in Success or
    Failed. *)
Theorem state_methods_assign_unconditionally (m : state_method)
    (p : ChaoxingProcess) :
  state (call m p) = target m ∧
  (reverse_move (state p) (state (call m p)) ↔
     (m = ToInit ∧ state p ≠ INIT) ∨
     (m = ToRunning ∧ (state p = SUCCESS ∨ state p = Failed))) ∧
  (∀ text now q, state (ask text now p q).1.2 = state p) ∧
  (∀ t, state (set_last_refresh_time t p) = state p) ∧
  (∀ b, state (set_alive b p) = state p).
Proof.
  split; [by destruct m|]. split; [|split; [|done]].
  - unfold reverse_move. destruct m, (state p); simpl; intuition congruence.
  - intros text now q. unfold ChaoxingWebPrompt.ask.
    destruct (mode (console p)); [|done].
    destruct (q !! process_id p) as [[v|]|] eqn:E; simpl; rewrite ?E;
      rewrite ?lookup_insert_eq; try done;
      by match goal with |- context [check_timeout ?n ?x] =>
           destruct (check_timeout n x) end.
Qed.

End Bridge_statements.

(** ** Concrete instances *)

(** C4 (counterexample). A web-mode process created at time 0 and still in
    Init asks its first question at time 301, with no entry in the queue:
    the very call that creates the entry returns "timeout", not [None]. *)
Lemma ask_first_call_times_out :
  let p := process_init "p1" None true 0 in
  let r := ChaoxingWebPrompt.ask id id "code?" 301 p ∅ in
  mode (console p) = true ∧
  (∅ : gmap string (option string)) !! process_id p = None ∧
  r.2 !! process_id p = Some None ∧
  r.1.1 = Some "timeout" ∧ r.1.1 ≠ None.
Proof. cbv zeta. repeat split; try (vm_compute; reflexivity). by vm_compute. Qed.

Lemma ask_creates_slot_then_checks_timeout_witness :
  let p := process_init "p1" None true 0 in
  let r := ChaoxingWebPrompt.ask id id "code?" 100 p ∅ in
  (mode (console p) = true ∧
   (∅ : gmap string (option string)) !! process_id p = None) ∧
  r.2 = <["p1" := None]> ∅ ∧
  output_collector (console r.1.2) = Deque 50 ["code?"] ∧
  r.1.1 = None ∧
  alive r.1.2 = true.
Proof.
  cbv zeta. split; [split; reflexivity|].
  exact (ask_creates_slot_then_checks_timeout id id "code?" 100
           (process_init "p1" None true 0) ∅ eq_refl eq_refl).
Defined.

(** C5 (counterexample). The same process waits on an unset entry and
    polls at time 301: [ask] returns "timeout" and the entry for its id is
    still in the queue afterwards. *)
Lemma ask_timeout_leaves_slot :
  let p := process_init "p1" None true 0 in
  let r := ChaoxingWebPrompt.ask id id "code?" 301 p {["p1" := None]} in
  r.1.1 = Some "timeout" ∧ alive r.1.2 = false ∧
  r.2 !! "p1" = Some None ∧ r.2 !! "p1" ≠ None.
Proof. cbv zeta. repeat split; try (vm_compute; reflexivity). by vm_compute. Qed.

Lemma ask_slot_lifetime_witness :
  let p := process_init "p1" None true 0 in
  let q : gmap string (option string) := {["p1" := Some "42"]} in
  let r := ChaoxingWebPrompt.ask id id "code?" 100 p q in
  (mode (console p) = true ∧ q !! process_id p = Some (Some "42")) ∧
  r = (Some "42", p, delete "p1" q) ∧
  r.2 !! "p1" = None ∧
  (ChaoxingWebPrompt.ask id id "again?" 101 r.1.2 r.2).1.1 = None.
Proof.
  cbv zeta. split; [split; reflexivity|].
  destruct (ask_slot_lifetime id id "code?" 100
              (process_init "p1" None true 0) {["p1" := Some "42"]} eq_refl)
    as (_ & Hans & _).
  destruct (Hans "42" eq_refl) as (H1 & H2 & H3).
  split; [exact H1|]. split; [exact H2|]. exact (H3 "again?" 101%Z).
Defined.

Lemma idle_timeout_thresholds_witness :
  let p := process_init "p1" None true 0 in
  let w := Multitasking.create_process "p1" 0 world_init in
  check_timeout 301 p = true ∧
  check_timeout 300 p = false ∧
  check_timeout 86401 (to_running p) = true ∧
  check_timeout 86400 (to_running p) = false ∧
  (ChaoxingWebPrompt.ask id id "code?" 301 p ∅).1.1 = Some "timeout" ∧
  (ChaoxingWebPrompt.ask id id "code?" 300 p ∅).1.1 = None ∧
  ∃ w', GarbageCollector.tick 300 w = Some (Ok w') ∧ 0 ∈ tasks w'.
Proof.
  cbv zeta.
  pose (p := process_init "p1" None true 0).
  assert (Hq : ∀ value : string,
             (∅ : gmap string (option string)) !! process_id p
             ≠ Some (Some value)).
  { intros value. rewrite lookup_empty. discriminate. }
  destruct (idle_timeout_thresholds id id 301 p) as (H1 & _ & H3 & _).
  destruct (idle_timeout_thresholds id id 300 p) as (_ & H2 & H3' & H4).
  destruct (idle_timeout_thresholds id id 86401 (to_running p)) as (H5 & H6 & _).
  split; [apply H1; simpl; lia|]. split; [exact H2|].
  split; [apply H5; simpl; lia|]. split; [exact H6|].
  split.
  { destruct (H3 "code?" ∅ eq_refl Hq) as [(Hr & _)|(_ & _ & Hle)];
      [exact Hr | simpl in Hle; lia]. }
  split.
  { destruct (H3' "code?" ∅ eq_refl Hq) as [(_ & _ & Hlt)|(Hr & _)];
      [simpl in Hlt; lia | exact Hr]. }
  destruct (H4 (Multitasking.create_process "p1" 0 world_init) 0)
    as (w' & Hw' & Hkeep & _).
  { simpl. apply list_elem_of_here. }
  { simpl. apply lookup_insert_eq. }
  exists w'. split; [exact Hw'|]. apply Hkeep. simpl. lia.
Defined.

Lemma send_value_never_creates_slot_witness :
  let p := process_init "p1" None true 0 in
  let waiting := set_input_queue {["p1" := None]} world_init in
  (input_queue world_init !! "p1" = None ∧
   input_queue waiting !! "p1" = Some None) ∧
  App.send_value "p1" "42" world_init = (Success, world_init) ∧
  (ChaoxingWebPrompt.ask id id "code?" 100 p
     (input_queue (App.send_value "p1" "42" world_init).2)).1.1 = None ∧
  input_queue (App.send_value "p1" "42" waiting).2 !! "p1" = Some (Some "42").
Proof.
  cbv zeta. split; [split; reflexivity|].
  destruct (send_value_never_creates_slot id id "p1" "42" world_init)
    as (Hno & _).
  destruct (Hno eq_refl) as (H1 & _ & H3).
  destruct (send_value_never_creates_slot id id "p1" "42"
              (set_input_queue {["p1" := None]} world_init)) as (_ & Hyes).
  destruct (Hyes None eq_refl) as (_ & H4).
  split; [exact H1|]. split; [|exact H4].
  destruct (H3 "code?" 100%Z (process_init "p1" None true 0) eq_refl eq_refl)
    as (_ & Hnone & _).
  apply Hnone. reflexivity.
Defined.

(** C9 (counterexample). [to_init] on a Running process puts it back in
    Init, and [to_running] on a Success process puts it back in Running. *)
Lemma to_init_takes_running_back_to_init :
  let p := to_running (process_init "p1" None true 0) in
  state p = RUNNING ∧ state (call ToInit p) = INIT ∧
  reverse_move (state p) (state (call ToInit p)) ∧
  reverse_move (state (to_success p)) (state (call ToRunning (to_success p))).
Proof.
  cbv zeta. simpl. unfold reverse_move. repeat split; [left|right]; by eauto.
Qed.

(** * Further properties *)

(** ** What a collector tick leaves *)

Lemma list_remove_middle (x : nat) (pre rest : list nat) :
  x ∉ pre → list_remove x (pre ++ x :: rest) = Ok (pre ++ rest).
Proof.
  induction pre as [|y pre IH]; intros Hx; simpl.
  - by rewrite decide_True.
  - apply not_elem_of_cons in Hx as [Hne Hx].
    rewrite decide_False by done. by rewrite IH.
Qed.

Lemma timed_out_insert_dead (now : Z) (h : gmap nat ChaoxingProcess)
    (x : nat) (task : ChaoxingProcess) (l : nat) :
  h !! x = Some task →
  timed_out now (<[x := set_alive false task]> h) l = timed_out now h l.
Proof.
  intros Hx. unfold timed_out. destruct (decide (x = l)) as [->|Hne].
  - by rewrite lookup_insert_eq, Hx.
  - by rewrite lookup_insert_ne.
Qed.

Lemma skip_sweep_from_ext (f g : nat -> bool) (l : list nat) :
  (∀ x, f x = g x) →
  ∀ skip, skip_sweep_from f skip l = skip_sweep_from g skip l.
Proof.
  intros Hfg. induction l as [|x l IH]; intros skip; simpl; [done|].
  rewrite Hfg. destruct skip; [by rewrite IH|].
  destruct (g x); by rewrite IH.
Qed.

Lemma skip_sweep_from_sublist (f : nat -> bool) (l : list nat) :
  ∀ skip, skip_sweep_from f skip l `sublist_of` l.
Proof.
  induction l as [|x l IH]; intros skip; simpl; [done|].
  destruct skip; [by apply sublist_skip|].
  destruct (f x); [by apply sublist_cons | by apply sublist_skip].
Qed.

Lemma skip_sweep_from_elem (f : nat -> bool) (l : list nat) (skip : bool)
    (x : nat) :
  x ∈ skip_sweep_from f skip l → x ∈ l.
Proof. intros H. eapply elem_of_sublist, skip_sweep_from_sublist. exact H. Qed.

(** The loop with the iterator at the end of [pre]: the part [suf] still
    ahead is what gets filtered. *)
Lemma sweep_exact (fuel : nat) (now : Z) :
  ∀ (suf pre : list nat) (w : World),
    tasks w = pre ++ suf → NoDup (pre ++ suf) → length suf ≤ fuel →
    ∃ w', GarbageCollector.sweep fuel now (length pre) w = Some (Ok w') ∧
          tasks w' = pre ++ skip_sweep (timed_out now (heap w)) suf ∧
          next_ref w' = next_ref w ∧ input_queue w' = input_queue w ∧
          ∀ l, heap w' !! l =
                 if decide (l ∈ suf ∧
                            l ∉ skip_sweep (timed_out now (heap w)) suf)
                 then set_alive false <$> heap w !! l
                 else heap w !! l.
Proof.
  induction fuel as [|fuel IH]; intros suf pre w Ht Hnd Hlen.
  - destruct suf; [|simpl in Hlen; lia]. rewrite app_nil_r in Ht.
    exists w. simpl. rewrite Ht, lookup_ge_None_2 by lia.
    rewrite app_nil_r. repeat split; try done.
    all: intros l; rewrite decide_False; [done|]; intros [H _];
      by apply elem_of_nil in H.
  - destruct suf as [|x rest].
    { rewrite app_nil_r in Ht. exists w. simpl.
      rewrite Ht, lookup_ge_None_2 by lia. rewrite app_nil_r.
      repeat split; try done.
      all: intros l; rewrite decide_False; [done|]; intros [H _];
        by apply elem_of_nil in H. }
    assert (Hx : tasks w !! length pre = Some x).
    { rewrite Ht. by apply list_lookup_middle. }
    apply NoDup_app in Hnd as (Hpre & Hdisj & Hsuf).
    apply NoDup_cons in Hsuf as [Hxr Hrest].
    assert (Hxpre : x ∉ pre) by (intros Hin; apply (Hdisj x Hin); by left).
    assert (Hkeep : ∀ w0 : World,
              tasks w0 = tasks w → heap w0 = heap w →
              next_ref w0 = next_ref w → input_queue w0 = input_queue w →
              timed_out now (heap w) x = false →
              ∃ w', GarbageCollector.sweep fuel now (S (length pre)) w0
                      = Some (Ok w') ∧
                    tasks w' = pre ++ skip_sweep (timed_out now (heap w)) (x :: rest) ∧
                    next_ref w' = next_ref w ∧ input_queue w' = input_queue w ∧
                    ∀ l, heap w' !! l =
                      if decide (l ∈ x :: rest ∧
                                 l ∉ skip_sweep (timed_out now (heap w)) (x :: rest))
                      then set_alive false <$> heap w !! l
                      else heap w !! l).
    { intros w0 Ht0 Hh0 Hn0 Hq0 HT.
      destruct (IH rest (pre ++ [x]) w0) as (w' & Hs & Hts & Hn & Hq & Hh).
      { rewrite Ht0, Ht. by rewrite <- app_assoc. }
      { rewrite <- app_assoc. simpl. apply NoDup_app. split; [done|].
        split; [done|]. by apply NoDup_cons. }
      { simpl in Hlen. lia. }
      rewrite length_app in Hs. simpl in Hs.
      replace (length pre + 1) with (S (length pre)) in Hs by lia.
      exists w'. split; [done|]. rewrite Hh0 in *.
      unfold skip_sweep in *. simpl. rewrite HT.
      split; [by rewrite Hts, <- app_assoc|].
      split; [congruence|]. split; [congruence|].
      intros l. rewrite Hh. destruct (decide (l = x)) as [->|Hne].
      - rewrite !decide_False; [done| |].
        + intros [_ H]. apply H. by left.
        + by intros [H _].
      - apply decide_ext. rewrite !elem_of_cons. intuition congruence. }
    simpl. rewrite Hx.
    destruct (heap w !! x) as [task|] eqn:Hhx.
    2:{ apply (Hkeep w); try done. unfold timed_out. by rewrite Hhx. }
    destruct (check_timeout now task) eqn:Hct.
    2:{ apply (Hkeep w); try done. unfold timed_out. by rewrite Hhx. }
    assert (HT : timed_out now (heap w) x = true).
    { unfold timed_out. by rewrite Hhx. }
    simpl tasks. rewrite Ht, list_remove_middle by done.
    set (w2 := set_tasks (pre ++ rest)
                 (set_heap (<[x := set_alive false task]> (heap w)) w)).
    destruct rest as [|y rest'].
    + exists w2. destruct fuel; simpl;
        (rewrite app_nil_r, lookup_ge_None_2 by lia);
        unfold skip_sweep; simpl; rewrite HT; simpl; rewrite app_nil_r;
        (repeat split; try done);
        intros l; (destruct (decide (l = x)) as [->|Hne];
          [ rewrite lookup_insert_eq, Hhx, decide_True; [done|];
            split; [by left | by intros H; apply elem_of_nil in H]
          | rewrite lookup_insert_ne by done; rewrite decide_False; [done|];
            intros [H _]; apply list_elem_of_singleton in H; done ]).
    + apply NoDup_cons in Hrest as [Hyr Hrest'].
      assert (Hxy : x ≠ y) by (intros ->; apply Hxr; by left).
      destruct (IH rest' (pre ++ [y]) w2) as (w' & Hs & Hts & Hn & Hq & Hh).
      { simpl. by rewrite <- app_assoc. }
      { rewrite <- app_assoc. simpl. apply NoDup_app. split; [done|].
        split; [|by apply NoDup_cons].
        intros z Hz Hz'. apply (Hdisj z Hz). by right. }
      { simpl in Hlen. lia. }
      rewrite length_app in Hs. simpl in Hs.
      replace (length pre + 1) with (S (length pre)) in Hs by lia.
      exists w'. split; [done|].
      unfold skip_sweep in *. simpl. rewrite HT. simpl in Hts, Hh.
      rewrite (skip_sweep_from_ext _ (timed_out now (heap w))) in Hts, Hh
        by (intros z; by apply timed_out_insert_dead).
      split; [by rewrite Hts, <- app_assoc|].
      split; [done|]. split; [done|].
      intros l. rewrite Hh.
      assert (Hxs : x ∉ skip_sweep_from (timed_out now (heap w)) false rest').
      { intros H. apply skip_sweep_from_elem in H. apply Hxr. by right. }
      destruct (decide (l = x)) as [->|Hne].
      * rewrite decide_False, decide_True, lookup_insert_eq, Hhx; [done| |].
        -- split; [by left|]. rewrite elem_of_cons. intuition congruence.
        -- intros [H _]. apply Hxr. by right.
      * rewrite lookup_insert_ne by done.
        destruct (decide (l = y)) as [->|Hney].
        -- rewrite !decide_False; [done| |].
           ++ intros [_ H]. apply H. by left.
           ++ by intros [H _].
        -- apply decide_ext. rewrite !elem_of_cons. intuition congruence.
Qed.

(** X1. On a registry without repeated references, a tick always
    completes and leaves exactly [skip_sweep] of the list: every flagged
    record is dropped except one that directly follows a dropped record. The
    dropped records, and only they, get [alive = False]; no other object,
    nor the input queue, is touched. *)
Theorem tick_is_skip_sweep (now : Z) (w : World) :
  NoDup (tasks w) →
  ∃ w', GarbageCollector.tick now w = Some (Ok w') ∧
        tasks w' = skip_sweep (timed_out now (heap w)) (tasks w) ∧
        next_ref w' = next_ref w ∧ input_queue w' = input_queue w ∧
        (∀ l, l ∈ tasks w → l ∉ tasks w' →
              heap w' !! l = set_alive false <$> heap w !! l) ∧
        (∀ l, l ∉ tasks w ∨ l ∈ tasks w' → heap w' !! l = heap w !! l).
Proof.
  intros Hnd.
  destruct (sweep_exact (length (tasks w)) now (tasks w) [] w)
    as (w' & Hs & Hts & Hn & Hq & Hh); [done..|].
  exists w'. simpl in Hts. split; [exact Hs|]. split; [done|].
  split; [done|]. split; [done|]. split.
  - intros l Hin Hout. rewrite Hh, decide_True; [done|]. by rewrite <- Hts.
  - intros l Hl. rewrite Hh, decide_False; [done|].
    rewrite <- Hts. intros [? ?]. by destruct Hl.
Qed.

Lemma tick_is_skip_sweep_witness :
  let w := Multitasking.create_process "p3" 0
             (Multitasking.create_process "p2" 0
                (Multitasking.create_process "p1" 0 world_init)) in
  NoDup (tasks w) ∧
  ∃ w', GarbageCollector.tick 301 w = Some (Ok w') ∧ tasks w' = [1].
Proof.
  cbv zeta.
  assert (Hnd : NoDup [0; 1; 2]) by (by apply (bool_decide_unpack _)).
  split; [exact Hnd|].
  destruct (tick_is_skip_sweep 301
              (Multitasking.create_process "p3" 0
                 (Multitasking.create_process "p2" 0
                    (Multitasking.create_process "p1" 0 world_init))) Hnd)
    as (w' & Hs & Hts & _).
  exists w'. split; [exact Hs|]. rewrite Hts. reflexivity.
Defined.

(** Where a flagged element ends up: gone, or strictly nearer the head
    (not farther, when the pass starts by passing over an element). *)
Lemma skip_sweep_from_position (f : nat -> bool) :
  ∀ (l : list nat) (skip : bool) (j x : nat),
    NoDup l → l !! j = Some x → f x = true →
    x ∉ skip_sweep_from f skip l ∨
    ∃ j', skip_sweep_from f skip l !! j' = Some x ∧
          (if skip then j' ≤ j else j' < j).
Proof.
  induction l as [|y l IH]; intros skip j x Hnd Hj Hf; [done|].
  apply NoDup_cons in Hnd as [Hy Hnd]. simpl.
  destruct j as [|j]; simpl in Hj.
  - simplify_eq. destruct skip.
    + right. exists 0. by split.
    + rewrite Hf. left. intros H. by apply skip_sweep_from_elem in H.
  - assert (Hxy : x ≠ y).
    { intros ->. apply Hy. by eapply list_elem_of_lookup_2. }
    destruct skip.
    + destruct (IH false j x Hnd Hj Hf) as [Hout|(j' & Hj' & Hlt)].
      * left. rewrite not_elem_of_cons. by split.
      * right. exists (S j'). split; [done|lia].
    + destruct (f y).
      * destruct (IH true j x Hnd Hj Hf) as [Hout|(j' & Hj' & Hle)];
          [by left|]. right. exists j'. split; [done|lia].
      * destruct (IH false j x Hnd Hj Hf) as [Hout|(j' & Hj' & Hlt)].
        -- left. rewrite not_elem_of_cons. by split.
        -- right. exists (S j'). split; [done|lia].
Qed.

Lemma tick_NoDup (now : Z) (w w' : World) :
  NoDup (tasks w) → GarbageCollector.tick now w = Some (Ok w') →
  NoDup (tasks w').
Proof.
  intros Hnd Hs.
  destruct (tick_is_skip_sweep now w Hnd) as (w1 & Hs1 & Hts & _).
  rewrite Hs in Hs1. simplify_eq. rewrite Hts.
  eapply sublist_NoDup; [exact Hnd|]. apply skip_sweep_from_sublist.
Qed.

(** Ticks leave alone what the registry no longer lists. *)
Lemma run_frame_absent (nows : list Z) : ∀ (w : World) (l : nat),
  NoDup (tasks w) → l ∉ tasks w →
  ∃ w', GarbageCollector_run nows w = Some (Ok w') ∧
        (l ∉ tasks w') ∧ heap w' !! l = heap w !! l.
Proof.
  induction nows as [|now nows IH]; intros w l Hnd Hl; simpl.
  - by exists w.
  - destruct (tick_is_skip_sweep now w Hnd) as (w1 & Hs & Hts & _ & _ & _ & Hh).
    rewrite Hs.
    assert (Hl1 : l ∉ tasks w1).
    { rewrite Hts. intros H. by apply skip_sweep_from_elem in H. }
    destruct (IH w1 l) as (w' & Hr & Hout & Hheap); [|done|].
    { by eapply tick_NoDup. }
    exists w'. split; [done|]. split; [done|].
    rewrite Hheap. apply Hh. by left.
Qed.

(** X2. Reclamation is delayed but bounded. With the collector running
    alone on a registry without repeated references, a record at index [j]
    that is over its threshold at every tick is out of the registry, with
    [alive = False], after at most [j + 1] ticks. *)
Theorem run_reclaims_within_position (nows : list Z) :
  ∀ (w : World) (j l : nat) (p : ChaoxingProcess),
    NoDup (tasks w) → tasks w !! j = Some l → heap w !! l = Some p →
    (∀ now, now ∈ nows →
       (max_idle (state p) < now - last_refresh_time p)%Z) →
    j < length nows →
    ∃ w', GarbageCollector_run nows w = Some (Ok w') ∧
          (l ∉ tasks w') ∧ heap w' !! l = Some (set_alive false p).
Proof.
  induction nows as [|now nows IH]; intros w j l p Hnd Hj Hl Hidle Hlen;
    [simpl in Hlen; lia|].
  simpl.
  destruct (tick_is_skip_sweep now w Hnd)
    as (w1 & Hs & Hts & _ & _ & Hdead & Hsame).
  rewrite Hs.
  assert (Hnd1 : NoDup (tasks w1)) by (by eapply tick_NoDup).
  assert (HT : timed_out now (heap w) l = true).
  { unfold timed_out. rewrite Hl. apply check_timeout_spec, Hidle. by left. }
  destruct (skip_sweep_from_position _ (tasks w) false j l Hnd Hj HT)
    as [Hout|(j' & Hj' & Hlt)].
  - destruct (run_frame_absent nows w1 l Hnd1) as (w' & Hr & Hout' & Hh).
    { by rewrite Hts. }
    exists w'. split; [done|]. split; [done|].
    rewrite Hh, Hdead, Hl; [done| |by rewrite Hts].
    by eapply list_elem_of_lookup_2.
  - apply (IH w1 j' l p); try done.
    + by rewrite Hts.
    + rewrite Hsame, Hl; [done|]. right. rewrite Hts.
      by eapply list_elem_of_lookup_2.
    + intros now' Hin. apply Hidle. by right.
    + simpl in Hlen. lia.
Qed.

Lemma run_reclaims_within_position_witness :
  let w := Multitasking.create_process "p2" 0
             (Multitasking.create_process "p1" 0 world_init) in
  (NoDup (tasks w) ∧ tasks w !! 1 = Some 1) ∧
  ∃ w', GarbageCollector_run [301; 306]%Z w = Some (Ok w') ∧
        (1 ∉ tasks w') ∧ alive <$> heap w' !! 1 = Some false.
Proof.
  cbv zeta.
  assert (Hnd : NoDup [0; 1]) by (by apply (bool_decide_unpack _)).
  split; [split; [exact Hnd|reflexivity]|].
  destruct (run_reclaims_within_position [301; 306]%Z
              (Multitasking.create_process "p2" 0
                 (Multitasking.create_process "p1" 0 world_init))
              1 1 (process_init "p2" None true 0) Hnd eq_refl)
    as (w' & Hr & Hout & Hh).
  - simpl. rewrite lookup_insert_eq. reflexivity.
  - intros now Hin. simpl.
    apply elem_of_cons in Hin as [->|Hin]; [lia|].
    apply list_elem_of_singleton in Hin as ->. lia.
  - simpl. lia.
  - exists w'. split; [exact Hr|]. split; [exact Hout|]. by rewrite Hh.
Defined.

(** ** Registry: creation, lookup, heartbeat *)

Lemma find_task_is_Some (test : ChaoxingProcess -> bool)
    (h : gmap nat ChaoxingProcess) (ts : list nat) (l : nat)
    (p : ChaoxingProcess) :
  l ∈ ts → h !! l = Some p → test p = true → is_Some (find_task test h ts).
Proof.
  induction ts as [|x ts IH]; intros Hin Hl Ht; [by apply elem_of_nil in Hin|].
  simpl. destruct (decide (x = l)) as [->|Hne].
  - rewrite Hl, Ht. eauto.
  - apply elem_of_cons in Hin as [?|Hin]; [done|].
    destruct (h !! x) as [task|]; [destruct (test task); [eauto|]|]; by apply IH.
Qed.

Lemma next_ref_not_listed (w : World) : wf_world w → next_ref w ∉ tasks w.
Proof. intros [Hobj Hfresh] Hin. apply Hobj, Hfresh in Hin. lia. Qed.

(** X3. [create_process] does not look for the id it is given. On a
    well-formed store, a lookup of that id right after the creation returns
    the new record (state Init, alive, empty web console) only if no record
    had the id before; otherwise it still returns the older record, and
    the new one cannot be reached by its id. *)
Theorem create_process_then_get_process (pid : string) (now : Z) (w : World) :
  wf_world w →
  Multitasking.get_process pid (Multitasking.create_process pid now w) =
    match Multitasking.get_process pid w with
    | Some older => Some older
    | None => Some (next_ref w, process_init pid None true now)
    end.
Proof.
  intros Hwf. unfold Multitasking.get_process. simpl.
  rewrite find_task_insert_fresh by (by apply next_ref_not_listed).
  destruct (find_task _ (heap w) (tasks w)); [done|].
  simpl. by rewrite bool_decide_eq_true_2.
Qed.

Lemma create_process_then_get_process_witness :
  let w1 := Multitasking.create_process "p1" 0 world_init in
  let w2 := Multitasking.create_process "p1" 9 w1 in
  (wf_world world_init ∧ wf_world w1) ∧
  Multitasking.get_process "p1" w1 = Some (0, process_init "p1" None true 0) ∧
  Multitasking.get_process "p1" w2 = Some (0, process_init "p1" None true 0).
Proof.
  cbv zeta.
  pose proof wf_world_init as H0.
  pose proof (create_process_wf "p1" 0 world_init H0) as H1.
  split; [by split|].
  pose proof (create_process_then_get_process "p1" 0 world_init H0) as E1.
  pose proof (create_process_then_get_process "p1" 9 _ H1) as E2.
  rewrite E2, E1. by split.
Defined.

(** X4. On a well-formed store the id that [get_process_id] hands out can
    be looked up at once, whether it was found by phone or just created,
    and the call adds at most one record to the registry. *)
Theorem get_process_id_is_resolvable (ph uuid4_hex : string) (now : Z)
    (w : World) :
  wf_world w →
  ∃ pid,
    (App.get_process_id ph uuid4_hex now w).1 = SuccessProcessId pid ∧
    is_Some (Multitasking.get_process pid
               (App.get_process_id ph uuid4_hex now w).2) ∧
    length (tasks (App.get_process_id ph uuid4_hex now w).2)
      ≤ S (length (tasks w)).
Proof.
  intros Hwf. unfold App.get_process_id, Multitasking.get_process_id.
  destruct (find_task _ (heap w) (tasks w)) as [[l task]|] eqn:Hf.
  - exists (process_id task). simpl. split; [done|]. split; [|lia].
    apply find_task_Some in Hf as (Hin & Hl & _).
    eapply find_task_is_Some; [exact Hin|exact Hl|].
    by apply bool_decide_eq_true_2.
  - exists uuid4_hex. simpl. split; [done|]. split.
    + rewrite create_process_then_get_process by done.
      destruct (Multitasking.get_process uuid4_hex w); eauto.
    + rewrite length_app. simpl. lia.
Qed.

Lemma get_process_id_is_resolvable_witness :
  wf_world world_init ∧
  ∃ pid,
    (App.get_process_id "13800000000" "u1" 0 world_init).1
      = SuccessProcessId pid ∧
    is_Some (Multitasking.get_process pid
               (App.get_process_id "13800000000" "u1" 0 world_init).2).
Proof.
  split; [exact wf_world_init|].
  destruct (get_process_id_is_resolvable "13800000000" "u1" 0 world_init
              wf_world_init) as (pid & H1 & H2 & _).
  exists pid. by split.
Defined.

(** X5. A heartbeat for a listed id succeeds and rewrites only
    [last_refresh_time] of the first record with that id ([alive] stays as
    it was, dead or not). A collector tick that comes no later than the
    record's threshold after the heartbeat keeps the record. *)
Theorem refresh_protects_until_threshold (pid : string) (now now' : Z)
    (w : World) (l : nat) (p : ChaoxingProcess) :
  Multitasking.get_process pid w = Some (l, p) →
  (now' - now ≤ max_idle (state p))%Z →
  let w1 := (App.update_process_refresh_time pid now w).2 in
  (App.update_process_refresh_time pid now w).1 = Success ∧
  tasks w1 = tasks w ∧ input_queue w1 = input_queue w ∧
  heap w1 !! l = Some (set_last_refresh_time now p) ∧
  (∀ l', l' ≠ l → heap w1 !! l' = heap w !! l') ∧
  ∃ w2, GarbageCollector.tick now' w1 = Some (Ok w2) ∧
        l ∈ tasks w2 ∧ heap w2 !! l = Some (set_last_refresh_time now p).
Proof.
  intros Hg Hle. cbv zeta. unfold App.update_process_refresh_time.
  rewrite Hg. simpl.
  split; [done|]. split; [done|]. split; [done|].
  split; [by rewrite lookup_insert_eq|].
  split; [by intros l' Hne; rewrite lookup_insert_ne|].
  set (w1 := set_heap _ w).
  destruct (tick_returns now' w1) as [w2 Hw2]. exists w2. split; [done|].
  apply find_task_Some in Hg as (Hin & _ & _).
  eapply (sweep_retains _ _ _ _ _ Hw2 l (set_last_refresh_time now p)).
  - done.
  - unfold w1. simpl. by rewrite lookup_insert_eq.
  - apply check_timeout_false. simpl. lia.
Qed.

Lemma refresh_protects_until_threshold_witness :
  let w := Multitasking.create_process "p1" 0 world_init in
  let w1 := (App.update_process_refresh_time "p1" 1000 w).2 in
  (Multitasking.get_process "p1" w = Some (0, process_init "p1" None true 0)
   ∧ (1300 - 1000 ≤ 300)%Z) ∧
  ∃ w2, GarbageCollector.tick 1300 w1 = Some (Ok w2) ∧ 0 ∈ tasks w2.
Proof.
  cbv zeta.
  assert (Hg : Multitasking.get_process "p1"
                 (Multitasking.create_process "p1" 0 world_init)
               = Some (0, process_init "p1" None true 0)) by reflexivity.
  split; [split; [exact Hg|lia]|].
  destruct (refresh_protects_until_threshold "p1" 1000 1300 _ _ _ Hg)
    as (_ & _ & _ & _ & _ & w2 & Hw2 & Hin & _).
  - simpl. lia.
  - exists w2. by split.
Defined.

(** ** The update stream *)

Lemma find_task_update (test : ChaoxingProcess -> bool)
    (h : gmap nat ChaoxingProcess) (ts : list nat) (l : nat)
    (p p' : ChaoxingProcess) :
  find_task test h ts = Some (l, p) → test p' = true →
  find_task test (<[l := p']> h) ts = Some (l, p').
Proof.
  intros Hf Ht'. pose proof (find_task_Some _ _ _ _ _ Hf) as (_ & Hl & Ht).
  induction ts as [|x ts IH]; simpl in *; [done|].
  destruct (decide (x = l)) as [->|Hne].
  - by rewrite lookup_insert_eq, Ht'.
  - rewrite lookup_insert_ne by done.
    destruct (h !! x) as [task|]; [destruct (test task)|]; try by apply IH.
    by simplify_eq.
Qed.

Lemma comm_stream_step_found (pid : string) (w : World) (l : nat)
    (p : ChaoxingProcess) (full : string) :
  Multitasking.get_process pid w = Some (l, p) →
  get_output (console p) = Some full →
  let out := if decide (last_output (console p) = full) then "" else full in
  let p' := set_console
              {| mode := mode (console p);
                 output_collector := output_collector (console p);
                 last_output := out |} p in
  comm_stream_step pid w =
    Ok (Message (if decide (out = "") then false else true) (Some out),
        set_heap (<[l := p']> (heap w)) w) ∧
  Multitasking.get_process pid (set_heap (<[l := p']> (heap w)) w)
    = Some (l, p') ∧
  get_output (console p') = Some full.
Proof.
  intros Hg Hfull. cbv zeta. unfold comm_stream_step.
  rewrite Hg, (get_update_output_web _ _ Hfull). split; [|split].
  - f_equal. f_equal. f_equal.
    destruct (decide (last_output (console p) = full));
      repeat case_decide; congruence.
  - unfold Multitasking.get_process in *. simpl.
    apply (find_task_update _ _ _ _ p); [done|]. simpl.
    apply find_task_Some in Hg as (_ & _ & Ht). exact Ht.
  - unfold get_output in *. simpl. done.
Qed.

Lemma comm_stream_pattern (full : string) (pid : string) (l : nat) (n : nat) :
  full ≠ "" →
  ∀ (w : World) (p : ChaoxingProcess),
    Multitasking.get_process pid w = Some (l, p) →
    get_output (console p) = Some full →
    ∃ w', comm_stream_generator n pid w =
            (stream_pattern full
               (if decide (last_output (console p) = full) then false else true)
               n,
             Ok w') ∧
          tasks w' = tasks w ∧ input_queue w' = input_queue w.
Proof.
  intros Hne. induction n as [|n IH]; intros w p Hg Hfull; simpl.
  - by exists w.
  - destruct (comm_stream_step_found pid w l p full Hg Hfull)
      as (Hstep & Hg' & Hfull').
    rewrite Hstep.
    destruct (IH _ _ Hg' Hfull') as (w' & Hgen & Hts & Hq).
    rewrite Hgen. exists w'. split; [|by split].
    f_equal. simpl.
    destruct (decide (last_output (console p) = full)) as [E|E]; simpl;
      repeat case_decide; simpl; congruence.
Qed.

(** X6. While a listed web process's output stays the same non-empty
    [full], the stream never settles: starting from a snapshot that
    differs from [full], its messages are the whole output with
    [update = true] and an empty message with [update = false] in turn, for
    as long as it runs, and the generator does not end. *)
Theorem stream_resends_every_other_turn (n : nat) (pid : string) (w : World)
    (l : nat) (p : ChaoxingProcess) (full : string) :
  Multitasking.get_process pid w = Some (l, p) →
  get_output (console p) = Some full →
  full ≠ "" → last_output (console p) ≠ full →
  ∃ w', comm_stream_generator n pid w = (stream_pattern full true n, Ok w') ∧
        tasks w' = tasks w ∧ input_queue w' = input_queue w.
Proof.
  intros Hg Hfull Hne Hlast.
  destruct (comm_stream_pattern full pid l n Hne w p Hg Hfull)
    as (w' & Hgen & Hrest).
  exists w'. split; [|done]. by rewrite decide_False in Hgen.
Qed.

(** X7. While a listed web process has printed nothing (its output is the
    empty string), every stream message is [update = false] with an empty
    output, whatever the snapshot was. *)
Theorem stream_silent_on_empty_output (n : nat) (pid : string) :
  ∀ (w : World) (l : nat) (p : ChaoxingProcess),
    Multitasking.get_process pid w = Some (l, p) →
    get_output (console p) = Some "" →
    ∃ w', comm_stream_generator n pid w =
            (replicate n (Message false (Some "")), Ok w') ∧
          tasks w' = tasks w.
Proof.
  induction n as [|n IH]; intros w l p Hg Hfull; simpl.
  - by exists w.
  - destruct (comm_stream_step_found pid w l p "" Hg Hfull)
      as (Hstep & Hg' & Hfull').
    rewrite Hstep.
    destruct (IH _ _ _ Hg' Hfull') as (w' & Hgen & Hts).
    rewrite Hgen. exists w'. split; [|done].
    f_equal. f_equal. by destruct (decide (last_output (console p) = "")).
Qed.

(** X8. For an id that no listed record has, the stream yields nothing:
    its first turn raises [AttributeError] out of the generator (the loop
    only catches connection errors), and the store is left untouched. *)
Theorem stream_of_missing_process_raises (n : nat) (pid : string) (w : World) :
  (∀ l p, l ∈ tasks w → heap w !! l = Some p → process_id p ≠ pid) →
  comm_stream_generator (S n) pid w = ([], Raise AttributeError).
Proof.
  intros Hnone. simpl. unfold comm_stream_step, Multitasking.get_process.
  rewrite find_task_None; [done|].
  intros l p Hl Hp. apply bool_decide_eq_false. by eapply Hnone.
Qed.

Lemma stream_resends_every_other_turn_witness :
  let p := set_console (console_prints id ["A"; "B"] (console_init true))
             (process_init "p1" None true 0) in
  let w := set_heap {[0 := p]} (Multitasking.create_process "p1" 0 world_init) in
  (Multitasking.get_process "p1" w = Some (0, p) ∧
   get_output (console p) = Some "AB" ∧ "AB" ≠ "" ∧
   last_output (console p) ≠ "AB") ∧
  (comm_stream_generator 4 "p1" w).1 =
    [Message true (Some "AB"); Message false (Some "");
     Message true (Some "AB"); Message false (Some "")].
Proof.
  cbv zeta.
  set (p := set_console (console_prints id ["A"; "B"] (console_init true))
              (process_init "p1" None true 0)).
  set (w := set_heap {[0 := p]} (Multitasking.create_process "p1" 0 world_init)).
  assert (H1 : Multitasking.get_process "p1" w = Some (0, p)) by reflexivity.
  assert (H2 : get_output (console p) = Some "AB") by reflexivity.
  assert (H3 : "AB" ≠ "") by discriminate.
  assert (H4 : last_output (console p) ≠ "AB") by discriminate.
  split; [done|].
  destruct (stream_resends_every_other_turn 4 "p1" w 0 p "AB" H1 H2 H3 H4)
    as (w' & Hgen & _).
  by rewrite Hgen.
Defined.

Lemma stream_silent_on_empty_output_witness :
  let w := Multitasking.create_process "p1" 0 world_init in
  (Multitasking.get_process "p1" w = Some (0, process_init "p1" None true 0) ∧
   get_output (console (process_init "p1" None true 0)) = Some "") ∧
  (comm_stream_generator 3 "p1" w).1 = replicate 3 (Message false (Some "")).
Proof.
  cbv zeta. split; [by split|].
  destruct (stream_silent_on_empty_output 3 "p1"
              (Multitasking.create_process "p1" 0 world_init) 0
              (process_init "p1" None true 0) eq_refl eq_refl)
    as (w' & Hgen & _).
  by rewrite Hgen.
Defined.

Lemma stream_of_missing_process_raises_witness :
  let w := Multitasking.create_process "p1" 0 world_init in
  comm_stream_generator 1 "p2" w = ([], Raise AttributeError).
Proof.
  apply (stream_of_missing_process_raises 0 "p2"
           (Multitasking.create_process "p1" 0 world_init)).
  intros l p Hl Hp. simpl in Hl. apply list_elem_of_singleton in Hl. subst l.
  simpl in Hp. rewrite lookup_insert_eq in Hp. by simplify_eq.
Defined.

(** ** Prompt bridge: how [ask] and [send_value] compose *)

Section Bridge_composition.

Variables export_fragment Prompt_ask : string -> string.

Local Abbreviation ask := (ChaoxingWebPrompt.ask export_fragment Prompt_ask).
Local Abbreviation worker_ask' := (worker_ask export_fragment Prompt_ask).
Local Abbreviation ask_poll' := (ask_poll export_fragment Prompt_ask).

(** X9. Question and answer round trip. A web worker with no pending entry
    asks; the client then sends a value; the worker's next [ask] returns
    exactly that value, at whatever time it comes (an answer is returned
    even if the process is past its idle threshold, and this call does not
    mark it dead), and the queue is back to what it was before the
    question. *)
Theorem prompt_round_trip (text text' value : string) (l : nat)
    (now now' : Z) (w : World) (p : ChaoxingProcess) :
  heap w !! l = Some p → mode (console p) = true →
  input_queue w !! process_id p = None →
  ∃ w1 w3,
    worker_ask' text l now w = Some (no_answer now p, w1) ∧
    worker_ask' text' l now'
      (App.send_value (process_id p) value w1).2 = Some (Some value, w3) ∧
    input_queue w3 = input_queue w ∧ heap w3 = heap w1 ∧ tasks w3 = tasks w.
Proof.
  intros Hl Hm Hq. unfold worker_ask. rewrite Hl.
  rewrite (ask_no_slot _ _ text now p _ Hm Hq).
  set (p1 := after_no_answer now _).
  assert (Hid : process_id p1 = process_id p).
  { unfold p1, after_no_answer. by destruct (check_timeout now _). }
  assert (Hm1 : mode (console p1) = true).
  { unfold p1, after_no_answer, collect_output.
    by destruct (check_timeout now _). }
  eexists. eexists. split; [reflexivity|].
  unfold App.send_value. simpl. rewrite lookup_insert_eq. simpl.
  rewrite lookup_insert_eq.
  rewrite (ask_answered_slot _ _ text' now' p1 _ value Hm1)
    by (by rewrite Hid, lookup_insert_eq).
  split; [reflexivity|]. simpl.
  rewrite Hid, !insert_insert_eq, delete_insert_eq, delete_id by done.
  done.
Qed.


Lemma ask_poll_unset (text : string) (nows : list Z) (p : ChaoxingProcess)
    (q : gmap string (option string)) :
  mode (console p) = true → q !! process_id p = Some None →
  (∀ now, now ∈ nows →
     (now - last_refresh_time p ≤ max_idle (state p))%Z) →
  ask_poll' text nows p q = (replicate (length nows) None, p, q).
Proof.
  intros Hm Hq. induction nows as [|now nows IH]; intros Hin; simpl; [done|].
  rewrite (ask_unset_slot _ _ text now p q Hm Hq).
  unfold no_answer, after_no_answer.
  assert (Hc : check_timeout now p = false).
  { apply check_timeout_false, Hin. by left. }
  rewrite Hc, IH; [done|]. intros now' H. apply Hin. by right.
Qed.

(** X11. Polling prints the prompt once. A web worker with no pending
    entry that calls [ask] at one or more times, all within its idle
    threshold and with no answer sent, gets [None] every time; its output
    buffer has received the prompt exactly once, and the queue holds one
    unset entry for it. *)
Theorem ask_poll_prints_once (text : string) (now : Z) (nows : list Z)
    (p : ChaoxingProcess) (q : gmap string (option string)) :
  mode (console p) = true → q !! process_id p = None →
  (∀ t, t ∈ now :: nows →
     (t - last_refresh_time p ≤ max_idle (state p))%Z) →
  ask_poll' text (now :: nows) p q =
    (replicate (S (length nows)) None,
     set_console (collect_output export_fragment text (console p)) p,
     <[process_id p := None]> q).
Proof.
  intros Hm Hq Hin. simpl.
  rewrite (ask_no_slot _ _ text now p q Hm Hq).
  unfold no_answer, after_no_answer.
  change (check_timeout now (set_console _ p)) with (check_timeout now p).
  assert (Hc : check_timeout now p = false).
  { apply check_timeout_false, Hin. by left. }
  rewrite Hc. rewrite ask_poll_unset; [done|done| |].
  - simpl. by rewrite lookup_insert_eq.
  - intros t Ht. simpl. apply Hin. by right.
Qed.

(** X12. The last value sent wins. When an entry is pending (answered or
    not), two [send_value] calls in a row leave the store as the second
    alone would, and the worker's next [ask] returns the second value; the
    empty string counts as an answer like any other. *)
Theorem send_value_last_write_wins (pid v1 v2 : string) (w : World)
    (old : option string) :
  input_queue w !! pid = Some old →
  App.send_value pid v2 (App.send_value pid v1 w).2 = App.send_value pid v2 w ∧
  ∀ text now p,
    process_id p = pid → mode (console p) = true →
    (ask text now p
       (input_queue (App.send_value pid v2 (App.send_value pid v1 w).2).2)).1.1
    = Some v2.
Proof.
  intros Hq. unfold App.send_value. rewrite Hq. simpl.
  rewrite lookup_insert_eq. simpl. unfold set_input_queue. simpl.
  rewrite insert_insert_eq. split; [done|].
  intros text now p <- Hm.
  by rewrite (ask_answered_slot _ _ text now p _ v2 Hm)
    by (by rewrite lookup_insert_eq).
Qed.

End Bridge_composition.

(** X13. The state decides how long silence is tolerated. For a process
    idle for more than 300 s and at most 86400 s, the timeout test after
    one of the four state methods is true exactly when that method is not
    [to_running]: entering Running lifts the timeout, while finishing (or
    [to_init]) makes the record reclaimable at once. *)
Theorem state_method_flips_timeout (m : state_method) (now : Z)
    (p : ChaoxingProcess) :
  (300 < now - last_refresh_time p ≤ 86400)%Z →
  check_timeout now (call m p) =
    match m with ToRunning => false | _ => true end.
Proof.
  intros [Hlo Hhi].
  destruct (check_timeout now (call m p)) eqn:E.
  - apply check_timeout_spec in E. destruct m; simpl in *; try done; lia.
  - apply check_timeout_false in E. destruct m; simpl in *; try done; lia.
Qed.

(** ** What every operation preserves *)

Lemma evolves_refl (p : ChaoxingProcess) : evolves p p.
Proof. by repeat split. Qed.

Lemma evolves_trans (p1 p2 p3 : ChaoxingProcess) :
  evolves p1 p2 → evolves p2 p3 → evolves p1 p3.
Proof.
  intros (? & ? & ? & ? & ?) (? & ? & ? & ? & ?).
  repeat split; try congruence. auto.
Qed.

(** A step that keeps the references, lists no new one, and takes every
    object to a later version of itself with a buffer within bounds. *)
Lemma store_ok_step (w w' : World) :
  store_ok w → next_ref w' = next_ref w →
  tasks w' `sublist_of` tasks w →
  (∀ l, match heap w !! l with
        | Some p =>
            ∃ p', heap w' !! l = Some p' ∧ evolves p p' ∧
                  maxlen (output_collector (console p')) = 50 ∧
                  length (items (output_collector (console p'))) ≤ 50
        | None => heap w' !! l = None
        end) →
  store_ok w' ∧
  ∀ l p, heap w !! l = Some p → ∃ p', heap w' !! l = Some p' ∧ evolves p p'.
Proof.
  intros ([Hobj Hfresh] & Hnd & Hbuf) Hn Hsub Hpt. split; [split; [split|split]|].
  - intros l Hl. eapply elem_of_sublist in Hl; [|exact Hsub].
    destruct (Hobj l Hl) as [p Hp]. specialize (Hpt l). rewrite Hp in Hpt.
    destruct Hpt as (p' & -> & _). eauto.
  - intros l [p' Hp']. rewrite Hn. apply Hfresh.
    specialize (Hpt l). destruct (heap w !! l); [eauto|congruence].
  - by eapply sublist_NoDup.
  - intros l p' Hp'. specialize (Hpt l).
    destruct (heap w !! l) as [p|] eqn:Hp; [|congruence].
    destruct Hpt as (p'' & Hp'' & (_ & _ & _ & Hm & _) & Hmax & Hlen).
    simplify_eq. destruct (Hbuf l p Hp) as (Hmode & _). split; [congruence|done].
  - intros l p Hp. specialize (Hpt l). rewrite Hp in Hpt.
    destruct Hpt as (p' & ? & ? & _). eauto.
Qed.

(** The same for a step that replaces one object. *)
Lemma store_ok_replace (w : World) (l : nat) (p p' : ChaoxingProcess)
    (q : gmap string (option string)) :
  store_ok w → heap w !! l = Some p → evolves p p' →
  maxlen (output_collector (console p')) = 50 →
  length (items (output_collector (console p'))) ≤ 50 →
  let w' := set_input_queue q (set_heap (<[l := p']> (heap w)) w) in
  store_ok w' ∧
  ∀ l0 p0, heap w !! l0 = Some p0 →
           ∃ p0', heap w' !! l0 = Some p0' ∧ evolves p0 p0'.
Proof.
  intros Hok Hl Hev Hmax Hlen. cbv zeta.
  apply store_ok_step; try done.
  intros l0. simpl. destruct (decide (l = l0)) as [<-|Hne].
  - rewrite Hl, lookup_insert_eq. eauto.
  - rewrite lookup_insert_ne by done.
    destruct (heap w !! l0) as [p0|] eqn:Hp0; [|done].
    destruct Hok as (_ & _ & Hbuf). destruct (Hbuf l0 p0 Hp0) as (_ & ? & ?).
    exists p0. split; [done|]. split; [apply evolves_refl|done].
Qed.

Lemma store_ok_alter (w : World) (l : nat)
    (f : ChaoxingProcess -> ChaoxingProcess) :
  store_ok w →
  (∀ p, maxlen (output_collector (console p)) = 50 →
        length (items (output_collector (console p))) ≤ 50 →
        evolves p (f p) ∧
        maxlen (output_collector (console (f p))) = 50 ∧
        length (items (output_collector (console (f p)))) ≤ 50) →
  let w' := set_heap (alter f l (heap w)) w in
  store_ok w' ∧
  ∀ l0 p0, heap w !! l0 = Some p0 →
           ∃ p0', heap w' !! l0 = Some p0' ∧ evolves p0 p0'.
Proof.
  intros Hok Hf. cbv zeta. apply store_ok_step; try done.
  intros l0. simpl. rewrite lookup_alter.
  destruct Hok as (_ & _ & Hbuf).
  destruct (heap w !! l0) as [p0|] eqn:Hp0.
  - destruct (Hbuf l0 p0 Hp0) as (_ & Hmax & Hlen).
    case_decide as Hd.
    + subst l0. rewrite Hp0. simpl. destruct (Hf p0 Hmax Hlen) as (? & ? & ?).
      eauto.
    + exists p0. split; [done|]. split; [apply evolves_refl|done].
  - case_decide as Hd; [subst l0; by rewrite Hp0|done].
Qed.

Lemma store_ok_world_init : store_ok world_init.
Proof.
  split; [apply wf_world_init|]. split; [apply NoDup_nil_2|].
  intros l p. simpl. by rewrite lookup_empty.
Qed.

Lemma create_process_store_ok (pid : string) (now : Z) (w : World) :
  store_ok w →
  store_ok (Multitasking.create_process pid now w) ∧
  ∀ l p, heap w !! l = Some p →
         heap (Multitasking.create_process pid now w) !! l = Some p.
Proof.
  intros (Hwf & Hnd & Hbuf). split; [split; [|split]|].
  - by apply create_process_wf.
  - simpl. apply NoDup_app. split; [done|]. split; [|apply NoDup_singleton].
    intros x Hx Hx'. apply list_elem_of_singleton in Hx'. subst x.
    by apply next_ref_not_listed in Hx.
  - intros l p. simpl. destruct (decide (next_ref w = l)) as [<-|Hne].
    + rewrite lookup_insert_eq. intros [= <-]. simpl. repeat split; lia.
    + rewrite lookup_insert_ne by done. apply Hbuf.
  - intros l p Hp. simpl. rewrite lookup_insert_ne; [done|].
    intros <-. destruct Hwf as [_ Hfresh].
    assert (next_ref w < next_ref w) by (apply Hfresh; eauto). lia.
Qed.

Section Invariants.

Variables export_fragment Prompt_ask : string -> string.

Lemma ask_keeps_object (text : string) (now : Z) (p : ChaoxingProcess)
    (q : gmap string (option string)) :
  maxlen (output_collector (console p)) = 50 →
  length (items (output_collector (console p))) ≤ 50 →
  let p' := (ChaoxingWebPrompt.ask export_fragment Prompt_ask text now p q).1.2 in
  evolves p p' ∧
  maxlen (output_collector (console p')) = 50 ∧
  length (items (output_collector (console p'))) ≤ 50.
Proof.
  intros Hmax Hlen. cbv zeta. unfold ChaoxingWebPrompt.ask.
  destruct (mode (console p)) eqn:Hm; [|by split; [apply evolves_refl|]].
  destruct (q !! process_id p) as [[v|]|] eqn:E; simpl; rewrite ?E;
    rewrite ?lookup_insert_eq.
  - by split; [apply evolves_refl|].
  - destruct (check_timeout now p); simpl; (split; [|done]);
      by repeat split.
  - change (check_timeout now (set_console _ p)) with (check_timeout now p).
    unfold console_print. rewrite Hm.
    destruct (check_timeout now p); simpl;
      rewrite deque_append_maxlen, Hmax;
      (split; [by repeat split|]); (split; [done|]);
      rewrite <- Hmax; apply deque_append_bounded; lia.
Qed.

Lemma run_operation_step (o : operation) (w : World) :
  store_ok w →
  store_ok (run_operation export_fragment Prompt_ask o w) ∧
  ∀ l p, heap w !! l = Some p →
         ∃ p', heap (run_operation export_fragment Prompt_ask o w) !! l
                 = Some p' ∧ evolves p p'.
Proof.
  intros Hok. pose proof Hok as (Hwf & Hnd & Hbuf).
  assert (Hsame : store_ok w ∧
            ∀ l p, heap w !! l = Some p →
                   ∃ p', heap w !! l = Some p' ∧ evolves p p').
  { split; [done|]. intros l p Hp. exists p. split; [done|apply evolves_refl]. }
  destruct o as [ph uid now|pid|pid now|pid value|now|text l now|text l|m l];
    simpl.
  - unfold App.get_process_id.
    destruct (Multitasking.get_process_id ph w); [done|]. simpl.
    destruct (create_process_store_ok uid now w Hok) as [Hok' Hkeep].
    split; [done|]. intros l p Hp. exists p.
    split; [by apply Hkeep|apply evolves_refl].
  - unfold comm_stream_step.
    destruct (Multitasking.get_process pid w) as [[l p]|] eqn:Hg; [|done].
    apply find_task_Some in Hg as (_ & Hl & _).
    destruct (Hbuf l p Hl) as (_ & Hmax & Hlen).
    unfold get_update_output.
    destruct (get_output (console p)); simpl.
    + apply (store_ok_replace w l p _ (input_queue w));
        solve [done | by repeat split].
    + apply (store_ok_replace w l p _ (input_queue w));
        solve [done | by repeat split].
  - unfold App.update_process_refresh_time.
    destruct (Multitasking.get_process pid w) as [[l p]|] eqn:Hg; [|done].
    apply find_task_Some in Hg as (_ & Hl & _).
    destruct (Hbuf l p Hl) as (_ & Hmax & Hlen). simpl.
    apply (store_ok_replace w l p _ (input_queue w));
      solve [done | by repeat split].
  - unfold App.send_value. destruct (input_queue w !! pid); simpl; done.
  - destruct (tick_is_skip_sweep now w Hnd)
      as (w' & Hs & Hts & Hn & _ & Hdead & Hkeep).
    rewrite Hs. apply store_ok_step; try done.
    { rewrite Hts. apply skip_sweep_from_sublist. }
    intros l. destruct (heap w !! l) as [p|] eqn:Hp.
    + destruct (Hbuf l p Hp) as (_ & Hmax & Hlen).
      destruct (decide (l ∈ tasks w ∧ l ∉ tasks w')) as [[H1 H2]|Hno].
      * rewrite (Hdead l H1 H2), Hp. simpl. eexists. split; [done|].
        split; [by repeat split|done].
      * rewrite Hkeep, Hp.
        -- exists p. split; [done|]. split; [apply evolves_refl|done].
        -- destruct (decide (l ∈ tasks w)); [right|by left].
           destruct (decide (l ∈ tasks w')); [done|]. by destruct Hno.
    + destruct (decide (l ∈ tasks w)) as [Hin|Hin].
      * destruct Hwf as [Hobj _]. destruct (Hobj l Hin) as [? ?]. congruence.
      * rewrite Hkeep by (by left). done.
  - unfold worker_ask. destruct (heap w !! l) as [p|] eqn:Hl; [|done].
    destruct (Hbuf l p Hl) as (_ & Hmax & Hlen).
    pose proof (ask_keeps_object text now p (input_queue w) Hmax Hlen) as Hk.
    cbv zeta in Hk.
    destruct (ChaoxingWebPrompt.ask _ _ text now p (input_queue w))
      as [[r p'] q]. simpl in *. destruct Hk as (Hev & Hmax' & Hlen').
    by apply (store_ok_replace w l p p' q).
  - apply store_ok_alter; [done|]. intros p Hmax Hlen.
    unfold console_print. destruct (mode (console p)) eqn:Hm; simpl.
    + rewrite deque_append_maxlen, Hmax. split; [by repeat split|].
      split; [done|]. rewrite <- Hmax. apply deque_append_bounded. lia.
    + split; [|done]. by repeat split.
  - apply store_ok_alter; [done|]. intros p Hmax Hlen.
    split; [|by destruct m]. destruct m; by repeat split.
Qed.

(** X14. Whatever the route handlers, the collector and the workers do,
    in whatever order, starting from the empty registry: every reference
    the registry lists designates an object, no reference is listed twice,
    and every process is a web-mode process whose output buffer holds at
    most 50 fragments. *)
Theorem store_ok_always (os : list operation) :
  store_ok (run_operations export_fragment Prompt_ask os world_init).
Proof.
  pose proof store_ok_world_init as H0.
  unfold run_operations. revert H0. generalize world_init.
  induction os as [|o os IH]; intros w Hok; simpl; [done|].
  apply IH. by apply run_operation_step.
Qed.

(** X15. No operation deletes a process object, changes its id, phone or
    creation time, or brings it back to life: once [alive] is false it is
    false for good, through heartbeats, answers, prints, state changes and
    collector ticks alike. *)
Theorem dead_stays_dead (os : list operation) :
  ∀ (w : World) (l : nat) (p : ChaoxingProcess),
    store_ok w → heap w !! l = Some p →
    ∃ p', heap (run_operations export_fragment Prompt_ask os w) !! l = Some p' ∧
          process_id p' = process_id p ∧ phone p' = phone p ∧
          begian_time p' = begian_time p ∧
          (alive p = false → alive p' = false).
Proof.
  assert (Hev : ∀ (w : World) (l : nat) (p : ChaoxingProcess),
            store_ok w → heap w !! l = Some p →
            ∃ p', heap (run_operations export_fragment Prompt_ask os w) !! l
                    = Some p' ∧ evolves p p').
  { unfold run_operations. induction os as [|o os IH]; intros w l p Hok Hp; simpl.
    - exists p. split; [done|apply evolves_refl].
    - destruct (run_operation_step o w Hok) as [Hok' Hstep].
      destruct (Hstep l p Hp) as (p1 & Hp1 & Hev1).
      destruct (IH _ l p1 Hok' Hp1) as (p' & Hp' & Hev').
      exists p'. split; [done|]. by eapply evolves_trans. }
  intros w l p Hok Hp. destruct (Hev w l p Hok Hp) as (p' & Hp' & Hev').
  exists p'. split; [done|]. destruct Hev' as (? & ? & ? & _ & ?). done.
Qed.

End Invariants.

(** ** [parse_css] *)

Lemma str_split_length (sep : ascii) (s : string) :
  length (str_split sep s) = S (str_count sep s).
Proof.
  induction s as [|c s IH]; simpl; [done|].
  destruct (decide (c = sep)); simpl; [by rewrite IH|].
  destruct (str_split sep s); simpl in *; [lia|done].
Qed.

Lemma str_contains_count (sep : ascii) (s : string) :
  str_contains sep s = true ↔ 1 ≤ str_count sep s.
Proof.
  induction s as [|c s IH]; simpl; [split; [done|lia]|].
  destruct (decide (c = sep)); [split; [lia|done]|]. by rewrite IH.
Qed.

Lemma str_split_two (sep : ascii) (s : string) :
  str_count sep s = 1 → ∃ a b, str_split sep s = [a; b].
Proof.
  intros Hc. pose proof (str_split_length sep s) as Hl. rewrite Hc in Hl.
  destruct (str_split sep s) as [|a [|b [|? ?]]]; simpl in Hl; try lia. eauto.
Qed.

Lemma str_split_not_two (sep : ascii) (s : string) :
  str_count sep s ≠ 1 → ∀ a b, str_split sep s ≠ [a; b].
Proof.
  intros Hc a b E. pose proof (str_split_length sep s) as Hl.
  rewrite E in Hl. simpl in Hl. lia.
Qed.

Lemma foldl_bind_Raise {A B : Type} (f : A -> B -> result A) (e : exn)
    (bs : list B) :
  foldl (fun acc b => bind acc (fun a => f a b)) (Raise e) bs = Raise e.
Proof. induction bs as [|b bs IH]; simpl; [done|apply IH]. Qed.

(** A loop whose body raises [ValueError] on the bad items and succeeds on
    the others raises exactly when an item is bad. *)
Lemma foldl_bind_cases {A B : Type} (f : A -> B -> result A) (bad : B -> Prop) :
  (∀ a b, (bad b ∧ f a b = Raise ValueError) ∨ (¬ bad b ∧ ∃ a', f a b = Ok a')) →
  ∀ (bs : list B) (a : A),
    (Exists bad bs ∧
     foldl (fun acc b => bind acc (fun a => f a b)) (Ok a) bs = Raise ValueError)
    ∨ (¬ Exists bad bs ∧
       ∃ a', foldl (fun acc b => bind acc (fun a => f a b)) (Ok a) bs = Ok a').
Proof.
  intros Hf. induction bs as [|b bs IH]; intros a; simpl.
  - right. split; [by intros H; inversion H|eauto].
  - destruct (Hf a b) as [[Hb ->]|[Hb [a' ->]]].
    + left. split; [by left|]. apply foldl_bind_Raise.
    + destruct (IH a') as [[Hex Hr]|[Hex Hr]].
      * left. split; [by right|done].
      * right. split; [|done]. intros H. inversion H; by subst.
Qed.

Section Css_facts.

Variable strip : string -> string.

Lemma parse_style_cases (d : list (string * string)) (style : string) :
  (2 ≤ str_count ":" style ∧ parse_style strip d style = Raise ValueError) ∨
  (¬ 2 ≤ str_count ":" style ∧ ∃ d', parse_style strip d style = Ok d').
Proof.
  unfold parse_style.
  destruct (str_contains ":" style) eqn:Hc.
  - apply str_contains_count in Hc.
    destruct (decide (str_count ":" style = 1)) as [H1|H1].
    + right. split; [lia|]. destruct (str_split_two _ _ H1) as (a & b & ->).
      eauto.
    + left. split; [lia|].
      pose proof (str_split_not_two _ _ H1) as Hn.
      destruct (str_split ":" style) as [|a [|b [|? ?]]]; try done.
      by destruct (Hn a b).
  - right. split; [|eauto]. intros H.
    assert (str_contains ":" style = true) by (apply str_contains_count; lia).
    congruence.
Qed.

Lemma parse_line_cases (d : list (string * list (string * string)))
    (line : string) :
  (bad_line strip line ∧ parse_line strip d line = Raise ValueError) ∨
  (¬ bad_line strip line ∧ ∃ d', parse_line strip d line = Ok d').
Proof.
  unfold parse_line, bad_line.
  destruct (str_contains "{" line) eqn:Ho; simpl;
    [|right; split; [by intros [? _]|eauto]].
  destruct (str_contains "}" line) eqn:Hc; simpl;
    [|right; split; [by intros (_ & ? & _)|eauto]].
  destruct (decide (str_count "{" line = 1)) as [H1|H1].
  - destruct (str_split_two _ _ H1) as (selector & styles & Hs). rewrite Hs.
    unfold parse_styles.
    destruct (foldl_bind_cases (parse_style strip)
                (fun style => 2 ≤ str_count ":" style)
                (parse_style_cases)
                (str_split ";" (strip (hd "" (str_split "}" styles)))) [])
      as [[Hex ->]|[Hex [sd ->]]]; simpl.
    + left. split; [|done]. split; [done|]. split; [done|]. right.
      exists selector, styles. split; [done|].
      apply Exists_exists in Hex as (style & Hin & Hbad).
      exists style. by split.
    + right. split; [|eauto]. intros (_ & _ & [Hn|Hb]); [done|].
      destruct Hb as (sel' & st' & [= <- <-] & style & Hin & Hbad).
      apply Hex, Exists_exists. exists style. by split.
  - left. split; [by repeat split; try left|].
    pose proof (str_split_not_two _ _ H1) as Hn.
    destruct (str_split "{" line) as [|a [|b [|? ?]]]; try done.
    by destruct (Hn a b).
Qed.

(** X16. [parse_css] fails, and then with [ValueError], exactly when some
    line of the style sheet is one it cannot unpack: a line with both
    braces and a second opening brace, or with a declaration holding a
    second colon (a URL value, for one). A single such line loses the
    whole result; without one, a dict is returned. *)
Theorem parse_css_raises_iff_bad_line (css : string) :
  (parse_css strip css = Raise ValueError ↔
     Exists (bad_line strip) (str_split "010" css)) ∧
  (∀ e, parse_css strip css = Raise e → e = ValueError) ∧
  (¬ Exists (bad_line strip) (str_split "010" css) →
     ∃ css_dict, parse_css strip css = Ok css_dict).
Proof.
  unfold parse_css.
  destruct (foldl_bind_cases (parse_line strip) (bad_line strip)
              parse_line_cases (str_split "010" css) [])
    as [[Hex ->]|[Hex [d ->]]].
  - split; [done|]. split; [by intros e [= <-]|done].
  - split; [split; [done|by intros H]|]. split; [done|eauto].
Qed.

(** X17. Lines that lack an opening or a closing brace contribute
    nothing: a style sheet with no line holding both, the empty one
    included, parses to the empty dict. *)
Theorem parse_css_without_rules (css : string) :
  (∀ line, line ∈ str_split "010" css →
           str_contains "{" line = false ∨ str_contains "}" line = false) →
  parse_css strip css = Ok [].
Proof.
  unfold parse_css. generalize (str_split "010" css).
  intros lines. induction lines as [|line lines IH]; intros Hall; simpl; [done|].
  assert (Hl : parse_line strip [] line = Ok []).
  { unfold parse_line. destruct (Hall line) as [-> | ->]; [by left|done|].
    by rewrite andb_false_r. }
  rewrite Hl. apply IH. intros l Hin. apply Hall. by right.
Qed.


(** Assignment then lookup: the key reads back the new value, the other
    keys read as before. *)
Lemma dict_get_set {V : Type} (k k0 : string) (v : V) (d : list (string * V)) :
  dict_get k0 (dict_set k v d) = if decide (k0 = k) then Some v else dict_get k0 d.
Proof.
  induction d as [|[k' v'] d IH]; simpl.
  - destruct (decide (k = k0)), (decide (k0 = k)); congruence.
  - destruct (decide (k' = k)) as [->|Hne]; simpl.
    + destruct (decide (k = k0)), (decide (k0 = k)); congruence.
    + destruct (decide (k' = k0)) as [->|Hne0].
      * by rewrite decide_False.
      * apply IH.
Qed.





End Css_facts.

(** ** Concrete instances of the further properties *)

Lemma prompt_round_trip_witness :
  let p := process_init "p1" None true 0 in
  let w := Multitasking.create_process "p1" 0 world_init in
  (heap w !! 0 = Some p ∧ mode (console p) = true ∧
   input_queue w !! process_id p = None) ∧
  ∃ w1 w3,
    worker_ask id id "code?" 0 100 w = Some (None, w1) ∧
    worker_ask id id "next?" 0 500 (App.send_value "p1" "42" w1).2
      = Some (Some "42", w3) ∧
    input_queue w3 = input_queue w ∧ heap w3 = heap w1.
Proof.
  cbv zeta. split; [by repeat split|].
  destruct (prompt_round_trip id id "code?" "next?" "42" 0 100 500
              (Multitasking.create_process "p1" 0 world_init)
              (process_init "p1" None true 0) eq_refl eq_refl eq_refl)
    as (w1 & w3 & H1 & H2 & H3 & H4 & _).
  exists w1, w3. by repeat split.
Defined.


Lemma ask_poll_prints_once_witness :
  let p := process_init "p1" None true 0 in
  (mode (console p) = true ∧
   (∅ : gmap string (option string)) !! process_id p = None) ∧
  ask_poll id id "code?" [10; 20; 300]%Z p ∅ =
    ([None; None; None],
     set_console (collect_output id "code?" (console p)) p,
     {["p1" := None]}).
Proof.
  cbv zeta.
  assert (Hq : (∅ : gmap string (option string))
                 !! process_id (process_init "p1" None true 0) = None)
    by reflexivity.
  split; [by split|].
  apply (ask_poll_prints_once id id "code?" 10 [20; 300]%Z
           (process_init "p1" None true 0) ∅ eq_refl Hq).
  intros t Ht. simpl.
  apply elem_of_cons in Ht as [->|Ht]; [lia|].
  apply elem_of_cons in Ht as [->|Ht]; [lia|].
  apply list_elem_of_singleton in Ht as ->. lia.
Defined.

Lemma send_value_last_write_wins_witness :
  let w := set_input_queue {["p1" := None]} world_init in
  input_queue w !! "p1" = Some None ∧
  App.send_value "p1" "" (App.send_value "p1" "first" w).2
    = App.send_value "p1" "" w ∧
  (ChaoxingWebPrompt.ask id id "code?" 5 (process_init "p1" None true 0)
     (input_queue
        (App.send_value "p1" "" (App.send_value "p1" "first" w).2).2)).1.1
  = Some "".
Proof.
  cbv zeta.
  assert (Hq : input_queue (set_input_queue {["p1" := None]} world_init)
                 !! "p1" = Some None) by reflexivity.
  split; [exact Hq|].
  destruct (send_value_last_write_wins id id "p1" "first" ""
              (set_input_queue {["p1" := None]} world_init) None Hq)
    as (H1 & H2).
  split; [exact H1|].
  exact (H2 "code?" 5%Z (process_init "p1" None true 0) eq_refl eq_refl).
Defined.

Lemma state_method_flips_timeout_witness :
  let p := process_init "p1" None true 0 in
  (300 < 301 - last_refresh_time p ≤ 86400)%Z ∧
  check_timeout 301 (to_running p) = false ∧
  check_timeout 301 (to_success (to_running p)) = true.
Proof.
  cbv zeta. split; [simpl; lia|]. split.
  - apply (state_method_flips_timeout ToRunning 301
             (process_init "p1" None true 0)). simpl. lia.
  - apply (state_method_flips_timeout ToSuccess 301
             (to_running (process_init "p1" None true 0))). simpl. lia.
Defined.

Lemma dead_stays_dead_witness :
  let w1 := Multitasking.create_process "p1" 0 world_init in
  let p := set_alive false (process_init "p1" None true 0) in
  let w := set_input_queue ∅ (set_heap (<[0 := p]> (heap w1)) w1) in
  (store_ok w ∧ heap w !! 0 = Some p ∧ alive p = false) ∧
  ∃ p', heap (run_operations id id
                [RefreshTime "p1" 50; SendValue "p1" "42";
                 WorkerAsk "code?" 0 60; WorkerState ToRunning 0; Tick 70] w)
          !! 0 = Some p' ∧
        alive p' = false.
Proof.
  cbv zeta.
  set (w1 := Multitasking.create_process "p1" 0 world_init).
  set (p := set_alive false (process_init "p1" None true 0)).
  set (w := set_input_queue ∅ (set_heap (<[0 := p]> (heap w1)) w1)).
  assert (Hok : store_ok w).
  { pose proof (create_process_store_ok "p1" 0 world_init store_ok_world_init)
      as [Hok1 _].
    assert (H0 : heap w1 !! 0 = Some (process_init "p1" None true 0))
      by reflexivity.
    assert (Hev : evolves (process_init "p1" None true 0) p)
      by (unfold p, evolves; simpl; tauto).
    assert (Hlen : length (items (output_collector (console p))) ≤ 50)
      by (unfold p; simpl; lia).
    exact (proj1 (store_ok_replace w1 0 _ p ∅ Hok1 H0 Hev eq_refl Hlen)). }
  assert (Hp : heap w !! 0 = Some p) by reflexivity.
  split; [split; [exact Hok|split; [exact Hp|reflexivity]]|].
  destruct (dead_stays_dead id id
              [RefreshTime "p1" 50; SendValue "p1" "42";
               WorkerAsk "code?" 0 60; WorkerState ToRunning 0; Tick 70]
              w 0 p Hok Hp) as (p' & Hp' & _ & _ & _ & Hdead).
  exists p'. split; [exact Hp'|]. by apply Hdead.
Defined.

Lemma parse_css_raises_iff_bad_line_witness :
  parse_css id ".r1 {color: #800000}
.r2 {background: url(http://x)}" = Raise ValueError ∧
  Exists (bad_line id) (str_split "010" ".r1 {color: #800000}
.r2 {background: url(http://x)}").
Proof.
  split; [reflexivity|].
  by apply (parse_css_raises_iff_bad_line id ".r1 {color: #800000}
.r2 {background: url(http://x)}").
Defined.

Lemma parse_css_without_rules_witness :
  parse_css id "body {
  color: red
}" = Ok [].
Proof.
  apply (parse_css_without_rules id). intros line Hin. simpl in Hin.
  apply elem_of_cons in Hin as [->|Hin]; [by right|].
  apply elem_of_cons in Hin as [->|Hin]; [by left|].
  apply list_elem_of_singleton in Hin as ->. by left.
Defined.


(** ** Further registry facts *)

Lemma find_task_first (test : ChaoxingProcess -> bool)
    (h : gmap nat ChaoxingProcess) (pre suf : list nat) (l : nat)
    (p : ChaoxingProcess) :
  h !! l = Some p → test p = true →
  (∀ l0 p0, l0 ∈ pre → h !! l0 = Some p0 → test p0 = false) →
  find_task test h (pre ++ l :: suf) = Some (l, p).
Proof.
  intros Hl Ht. induction pre as [|x pre IH]; intros Hpre; simpl.
  - by rewrite Hl, Ht.
  - destruct (h !! x) as [p0|] eqn:Hx.
    + rewrite (Hpre x p0); [|by left|done].
      apply IH. intros l0 q0 Hin. apply Hpre. by right.
    + apply IH. intros l0 q0 Hin. apply Hpre. by right.
Qed.

(** X19. Both lookups return the match that stands first in the registry
    list, that is the one created first: [get_process] the first record
    with the id, [get_process_id] the id of the first record with the
    phone. Later records with the same key are never returned while the
    first is listed. *)
Theorem lookups_return_first_match (w : World) (pre suf : list nat) (l : nat)
    (p : ChaoxingProcess) :
  tasks w = pre ++ l :: suf → heap w !! l = Some p →
  ((∀ l0 p0, l0 ∈ pre → heap w !! l0 = Some p0 →
             process_id p0 ≠ process_id p) →
   Multitasking.get_process (process_id p) w = Some (l, p)) ∧
  (∀ ph, phone p = Some ph →
     (∀ l0 p0, l0 ∈ pre → heap w !! l0 = Some p0 → phone p0 ≠ Some ph) →
     Multitasking.get_process_id ph w = Some (process_id p)).
Proof.
  intros Ht Hl. split.
  - intros Hpre. unfold Multitasking.get_process. rewrite Ht.
    apply find_task_first; [done|by apply bool_decide_eq_true_2|].
    intros l0 p0 Hin Hp0. apply bool_decide_eq_false. by eapply Hpre.
  - intros ph Hph Hpre. unfold Multitasking.get_process_id. rewrite Ht.
    rewrite (find_task_first _ _ _ _ l p); [done|done| |].
    + by apply bool_decide_eq_true_2.
    + intros l0 p0 Hin Hp0. apply bool_decide_eq_false. by eapply Hpre.
Qed.

Lemma lookups_return_first_match_witness :
  let w := Multitasking.create_process "p1" 5
             (Multitasking.create_process "p1" 0 world_init) in
  (tasks w = [] ++ 0 :: [1] ∧
   heap w !! 0 = Some (process_init "p1" None true 0)) ∧
  Multitasking.get_process "p1" w = Some (0, process_init "p1" None true 0).
Proof.
  cbv zeta.
  set (w := Multitasking.create_process "p1" 5
              (Multitasking.create_process "p1" 0 world_init)).
  assert (Ht : tasks w = [] ++ 0 :: [1]) by reflexivity.
  assert (Hl : heap w !! 0 = Some (process_init "p1" None true 0))
    by reflexivity.
  split; [by split|].
  destruct (lookups_return_first_match w [] [1] 0 _ Ht Hl) as [Hg _].
  apply Hg. intros l0 p0 Hin. by apply elem_of_nil in Hin.
Defined.

Lemma sweep_nothing_expired (now : Z) (w : World) :
  (∀ l p, l ∈ tasks w → heap w !! l = Some p → check_timeout now p = false) →
  ∀ fuel i, length (tasks w) - i ≤ fuel →
            GarbageCollector.sweep fuel now i w = Some (Ok w).
Proof.
  intros Hall. induction fuel as [|fuel IH]; intros i Hlen; simpl.
  - rewrite lookup_ge_None_2; [done|lia].
  - destruct (tasks w !! i) as [l|] eqn:Hi; [|done].
    pose proof (lookup_lt_Some _ _ _ Hi).
    destruct (heap w !! l) as [p|] eqn:Hl; [|apply IH; lia].
    rewrite (Hall l p); [apply IH; lia| |done].
    by eapply list_elem_of_lookup_2.
Qed.

(** X20. A tick over a registry in which no record has exceeded its
    threshold changes nothing at all: the list, every object and the input
    queue are as before. *)
Theorem tick_without_expired_is_noop (now : Z) (w : World) :
  (∀ l p, l ∈ tasks w → heap w !! l = Some p →
          (now - last_refresh_time p ≤ max_idle (state p))%Z) →
  GarbageCollector.tick now w = Some (Ok w).
Proof.
  intros Hall. apply sweep_nothing_expired; [|lia].
  intros l p Hin Hl. apply check_timeout_false. by eapply Hall.
Qed.

Lemma tick_without_expired_is_noop_witness :
  let w := Multitasking.create_process "p2" 10
             (Multitasking.create_process "p1" 0 world_init) in
  GarbageCollector.tick 300 w = Some (Ok w).
Proof.
  apply (tick_without_expired_is_noop 300
           (Multitasking.create_process "p2" 10
              (Multitasking.create_process "p1" 0 world_init))).
  intros l p Hin Hl. simpl in Hin.
  apply elem_of_cons in Hin as [->|Hin].
  - simpl in Hl. rewrite lookup_insert_ne, lookup_insert_eq in Hl by done.
    simplify_eq. simpl. lia.
  - apply list_elem_of_singleton in Hin as ->.
    simpl in Hl. rewrite lookup_insert_eq in Hl. simplify_eq. simpl. lia.
Defined.

(** [styles_to_string] on the rule of a parsed line. *)
Example styles_to_string_of_parsed_rule :
  parse_css id ".r1 {color:#800000;font-weight:bold}"
    = Ok [(".r1 ", [("color", "#800000"); ("font-weight", "bold")])] ∧
  styles_to_string [("color", "#800000"); ("font-weight", "bold")]
    = "color: #800000; font-weight: bold".
Proof. split; reflexivity. Qed.
